(** * Logprep: the generic resolver and the template replacer

    A shallow embedding of
    [logprep/processor/generic_resolver/processor.py] and
    [logprep/processor/template_replacer/processor.py], and the
    properties of the two enrichment engines stated in the specification.

    Definitions:
    - [Py]: the fragment of the Python runtime the two files rely on
      (JSON-like values, insertion-ordered dictionaries, [str.split],
      [str.join], slices, truthiness, [==], [in], [repr]).
    - [Accessor]: the dotted-path reader of the processor base class.
    - [GenericResolver]: the resolver, its pattern database store and
      the compilation of pattern databases.
    - [TemplateReplacer]: the template index builder and the lookup.
    - [Samples], [Notions]: inputs for the examples, and the notions
      the statements are phrased with.

    Properties:
    - [PyFacts]: dictionaries, [==], slices.
    - [ResolverChoice]: the choice among several matching patterns.
    - [ResolverTieBreak]: the replacement written when several patterns
      match.
    - [ResolverWrites]: writes to the target, conflicts, the error.
    - [ResolverStore]: compilation and the cache of databases.
    - [TemplateKeys]: recombination of composite keys, insertion.
    - [TemplateLookup]: the built index and the lookup.
    - [ResolverFrame], [ResolverEdges]: what a rule application leaves
      in place, absent targets, skipped mappings, the error text.
    - [ResolverPersistence]: the files of the persistence directory.
    - [TemplateEdges], [TemplateApply]: refused keys, the entries of
      the index, the target field.

    Documents are embedded as finite trees.  An event enters a processor
    as decoded JSON and the template file as decoded YAML, so at that
    moment no object is reachable under two names.  A write through a
    reference into the document ([dict_ = dict_[key]] followed by a
    mutation of [dict_]) is rendered by rebuilding the enclosing
    dictionaries along the path.  The one place where the resolver
    itself binds a second name to a list of the event (line 125) is
    rendered by showing the list under both names after the append that
    follows; a replacement value is written into the event as a value,
    apart from the mapping it was taken from.  So two effects of shared
    objects are not followed beyond the write that makes them: a later
    append to a list that line 125 has bound under two names shows, in
    the source, under both names, and here under the name it was made
    through; and a replacement that is itself a list or a dictionary
    is, in the source, the object the value mapping holds (lines 126,
    128 and 136), so that a later write into it through the event
    changes what the mapping hands out from then on, which it does not
    here.  Neither arises when the replacements are text and the event
    has no list under the name [key].  Whether the matcher library
    takes an expression, what a scan reports and the serialised form of
    a database are parameters.  Floating point numbers and failures of
    the file system other than a missing file are outside the
    embedding. *)

From Stdlib Require Import Ascii.
From stdpp Require Import base option list strings gmap pretty.

(* ===================================================================== *)
(** * The Python fragment *)
(* ===================================================================== *)

Module Py.

(** An insertion-ordered dictionary (the built-in [dict]): entries in
    insertion order, at most one entry per key as long as it is only
    extended through [dict_set]. *)
Definition odict (K V : Type) : Type := list (K * V).

Section odict.
Context {K V : Type} `{EqDecision K}.

(** [d.get(k)] *)
Fixpoint dict_get (k : K) (d : odict K V) : option V :=
  match d with
  | [] => None
  | (k', v) :: d' => if decide (k = k') then Some v else dict_get k d'
  end.

(** [k in d] *)
Definition dict_mem (k : K) (d : odict K V) : bool :=
  match dict_get k d with Some _ => true | None => false end.

(** [d[k] = v]: an existing key keeps its position, a new key goes
    last. *)
Fixpoint dict_set (k : K) (v : V) (d : odict K V) : odict K V :=
  match d with
  | [] => [(k, v)]
  | (k', v') :: d' =>
      if decide (k = k') then (k', v) :: d' else (k', v') :: dict_set k v d'
  end.

(** [list(d.keys())] *)
Definition dict_keys (d : odict K V) : list K := d.*1.

End odict.

(** JSON-like values.  Floating point numbers are left out.  The
    induction principle that goes through the nested lists is
    [value_ind'] below. *)
#[local] Unset Elimination Schemes.
Inductive value : Type :=
| VNone
| VBool (b : bool)
| VInt (z : Z)
| VStr (s : string)
| VList (l : list value)
| VDict (d : list (string * value)).
#[local] Set Elimination Schemes.

Section value_induction.
Variable P : value -> Prop.
Hypothesis HNone : P VNone.
Hypothesis HBool : forall b, P (VBool b).
Hypothesis HInt : forall z, P (VInt z).
Hypothesis HStr : forall s, P (VStr s).
Hypothesis HList : forall l, Forall P l -> P (VList l).
Hypothesis HDict : forall d, Forall (fun kx => P kx.2) d -> P (VDict d).

(** Induction on values, with the hypothesis available for the members
    of a list and of a dictionary. *)
Fixpoint value_ind' (v : value) : P v :=
  match v with
  | VNone => HNone
  | VBool b => HBool b
  | VInt z => HInt z
  | VStr s => HStr s
  | VList l =>
      HList l
        ((fix go (l : list value) : Forall P l :=
            match l with
            | [] => Forall_nil_2 P
            | x :: l' => Forall_cons_2 P x l' (value_ind' x) (go l')
            end) l)
  | VDict d =>
      HDict d
        ((fix go (d : list (string * value)) : Forall (fun kx => P kx.2) d :=
            match d with
            | [] => Forall_nil_2 _
            | kx :: d' => Forall_cons_2 _ kx d' (value_ind' kx.2) (go d')
            end) d)
  end.
End value_induction.

Definition dict : Type := odict string value.

(** Built-in exceptions raised by the operations below. *)
Inductive builtin_exn : Type :=
| KeyError
| TypeError
| AttributeError
| IndexError
| ValueError
| FileNotFoundError.

(** [bool(v)] *)
Definition truthy (v : value) : bool :=
  match v with
  | VNone => false
  | VBool b => b
  | VInt z => negb (z =? 0)%Z
  | VStr s => negb (String.eqb s "")
  | VList l => match l with [] => false | _ => true end
  | VDict d => match d with [] => false | _ => true end
  end.

(** [bool(d.get(k))]: a missing key reads as [None]. *)
Definition truthy_opt (o : option value) : bool :=
  match o with Some v => truthy v | None => false end.

Definition isinstance_dict (v : value) : bool :=
  match v with VDict _ => true | _ => false end.

Definition isinstance_list (v : value) : bool :=
  match v with VList _ => true | _ => false end.

(** [a == b].  [True == 1] and [False == 0] hold as in Python;
    dictionaries compare as maps, whatever the insertion order. *)
Fixpoint py_eq (a b : value) {struct a} : bool :=
  match a, b with
  | VNone, VNone => true
  | VBool x, VBool y => Bool.eqb x y
  | VBool x, VInt y => (y =? (if x then 1 else 0))%Z
  | VInt x, VBool y => (x =? (if y then 1 else 0))%Z
  | VInt x, VInt y => (x =? y)%Z
  | VStr x, VStr y => String.eqb x y
  | VList xs, VList ys =>
      (fix go (xs ys : list value) {struct xs} : bool :=
         match xs, ys with
         | [], [] => true
         | x :: xs', y :: ys' => py_eq x y && go xs' ys'
         | _, _ => false
         end) xs ys
  | VDict d, VDict e =>
      (length d =? length e) &&
      forallb (fun kx : string * value =>
                 existsb (fun ky : string * value =>
                            String.eqb kx.1 ky.1 && py_eq kx.2 ky.2) e) d
  | _, _ => false
  end.

(** [v in l] on a list: some element is [v] itself or equals it.  On
    trees the identity test is subsumed by [==], which is reflexive
    ([py_eq_refl] below). *)
Definition py_in (v : value) (l : list value) : bool := existsb (py_eq v) l.

(** ** Strings *)

(** [sub in s] on strings. *)
Fixpoint is_substring (sub s : string) : bool :=
  String.prefix sub s ||
  match s with
  | EmptyString => false
  | String _ s' => is_substring sub s'
  end.

(** [s.split(sep)] for a non-empty separator: occurrences are found left
    to right and do not overlap.  [skip] counts the characters of a
    separator occurrence still to be dropped. *)
Fixpoint split_go (sep : string) (skip : nat) (cur : string) (s : string)
  : list string :=
  match s with
  | EmptyString => [cur]
  | String c s' =>
      match skip with
      | S k => split_go sep k cur s'
      | O =>
          if String.prefix sep s
          then cur :: split_go sep (String.length sep - 1) "" s'
          else split_go sep O (cur +:+ String c "") s'
      end
  end.

(** [s.split(sep)]; an empty separator raises [ValueError]. *)
Definition py_split (sep s : string) : builtin_exn + list string :=
  match sep with
  | EmptyString => inl ValueError
  | _ => inr (split_go sep O "" s)
  end.

(** [s.split('.')] *)
Definition split_dots (s : string) : list string := split_go "." O "" s.

(** [sep.join(l)] *)
Fixpoint py_join (sep : string) (l : list string) : string :=
  match l with
  | [] => ""
  | [x] => x
  | x :: l' => x +:+ sep +:+ py_join sep l'
  end.

(** [repr(s)] of a string: single quotes unless the text has a single
    and no double quote; the quote, the backslash and the control
    characters are escaped.  Bytes from 128 on (UTF-8 sequences) are
    kept. *)
Definition hex_digit (n : nat) : ascii :=
  default "0"%char (String.get n "0123456789abcdef").

Definition has_char (c : ascii) (s : string) : bool :=
  bool_decide (c ∈ String.list_ascii_of_string s).

Definition backslash : ascii := Ascii.ascii_of_nat 92.
Definition single_quote : ascii := Ascii.ascii_of_nat 39.
Definition double_quote : ascii := Ascii.ascii_of_nat 34.

Definition repr_char (quote c : ascii) : string :=
  let n := Ascii.nat_of_ascii c in
  if bool_decide (c = quote) || bool_decide (c = backslash)
  then String backslash (String c "")
  else if n =? 9 then String backslash "t"
  else if n =? 10 then String backslash "n"
  else if n =? 13 then String backslash "r"
  else if (n <? 32) || (n =? 127)
  then String backslash
         (String "x" (String (hex_digit (n / 16))
                        (String (hex_digit (n mod 16)) "")))
  else String c "".

Fixpoint repr_chars (quote : ascii) (s : string) : string :=
  match s with
  | EmptyString => ""
  | String c s' => repr_char quote c +:+ repr_chars quote s'
  end.

Definition repr_str (s : string) : string :=
  let quote :=
    if has_char single_quote s && negb (has_char double_quote s)
    then double_quote else single_quote in
  String quote (repr_chars quote s) +:+ String quote "".

(** [repr(v)] *)
Fixpoint py_repr (v : value) : string :=
  match v with
  | VNone => "None"
  | VBool true => "True"
  | VBool false => "False"
  | VInt z => pretty z
  | VStr s => repr_str s
  | VList l => "[" +:+ py_join ", " (py_repr <$> l) +:+ "]"
  | VDict d =>
      "{" +:+
      py_join ", "
        ((fun kv : string * value => repr_str kv.1 +:+ ": " +:+ py_repr kv.2)
           <$> d) +:+
      "}"
  end.

(** [str(v)] *)
Definition py_str (v : value) : string :=
  match v with
  | VStr s => s
  | _ => py_repr v
  end.

(** ** Slices *)

(** The position a slice bound [i] denotes in a sequence of length
    [len]: a negative bound counts from the end, and both kinds are
    clamped to [0 .. len].  The bound [-0] is [0]. *)
Definition slice_bound (len : nat) (i : Z) : nat :=
  if (i <? 0)%Z then Z.to_nat (Z.max 0 (Z.of_nat len + i))
  else Z.to_nat (Z.min i (Z.of_nat len)).

(** [l[:i]] *)
Definition slice_to {A} (i : Z) (l : list A) : list A :=
  take (slice_bound (length l) i) l.

(** [l[i:]] *)
Definition slice_from {A} (i : Z) (l : list A) : list A :=
  drop (slice_bound (length l) i) l.

(** [l.index(x)]: the first position of [x]. *)
Fixpoint list_index `{EqDecision A} (x : A) (l : list A) : option nat :=
  match l with
  | [] => None
  | y :: l' => if decide (x = y) then Some O else S <$> list_index x l'
  end.

(** [enumerate(l, start)] and [enumerate(l)] *)
Fixpoint enumerate_from {A} (start : nat) (l : list A) : list (nat * A) :=
  match l with
  | [] => []
  | x :: l' => (start, x) :: enumerate_from (S start) l'
  end.

Definition enumerate {A} (l : list A) : list (nat * A) := enumerate_from 0 l.

(** ** Item access on arbitrary values *)

(** [key in v] for a string [key]. *)
Definition py_contains (v : value) (key : string) : builtin_exn + bool :=
  match v with
  | VDict d => inr (dict_mem key d)
  | VStr s => inr (is_substring key s)
  | VList l => inr (py_in (VStr key) l)
  | VNone | VBool _ | VInt _ => inl TypeError
  end.

(** [v[key]] for a string [key]. *)
Definition py_getitem (v : value) (key : string) : builtin_exn + value :=
  match v with
  | VDict d => match dict_get key d with Some x => inr x | None => inl KeyError end
  | _ => inl TypeError
  end.

(** [v[key] = x] for a string [key]. *)
Definition py_setitem (v : value) (key : string) (x : value)
  : builtin_exn + value :=
  match v with
  | VDict d => inr (VDict (dict_set key x d))
  | _ => inl TypeError
  end.

(** [v.get(key)]; only dictionaries have the method. *)
Definition py_get (v : value) (key : string) : builtin_exn + option value :=
  match v with
  | VDict d => inr (dict_get key d)
  | _ => inl AttributeError
  end.

End Py.

(* ===================================================================== *)
(** * The dotted-path reader of the processor base class *)
(* ===================================================================== *)

Module Accessor.
Import Py.

(** Descend from [v] along [fields]; absent as soon as a key is missing
    or the value reached is not a mapping. *)
Fixpoint get_path (v : value) (fields : list string) : option value :=
  match fields with
  | [] => Some v
  | field :: rest =>
      match v with
      | VDict d =>
          match dict_get field d with
          | Some x => get_path x rest
          | None => None
          end
      | _ => None
      end
  end.

(** Modelled from the spec: [RuleBasedProcessor._get_dotted_field_value]
    of [logprep/processor/base/processor.py], which both processors
    inherit and call.  The specification gives it as
    [get(doc, path) -> value | absent]: it splits the path on [.] and
    descends, and the result is absent if any intermediate key is
    missing or not a mapping.  Absent is Python's [None]. *)
Definition _get_dotted_field_value (event : dict) (dotted_field : string)
  : option value :=
  get_path (VDict event) (split_dots dotted_field).

(** [x is None] for the result of the reader. *)
Definition is_None (o : option value) : bool :=
  match o with
  | None | Some VNone => true
  | Some _ => false
  end.

End Accessor.

(* ===================================================================== *)
(** * generic_resolver/processor.py *)
(* ===================================================================== *)

Module GenericResolver.
Import Py Accessor.

(** ** Exceptions (lines 21-36) *)

(** [GenericResolverError.__init__]: the text the exception carries. *)
Definition GenericResolverError_message (name message : string) : string :=
  "GenericResolver (" +:+ name +:+ "): " +:+ message.

(** [DuplicationError.__init__] *)
Definition DuplicationError_message (name : string)
    (skipped_fields : list string) : string :=
  GenericResolverError_message name
    ("The following fields already existed and " +:+
     "were not overwritten by the Generic Resolver: " +:+
     py_join " " skipped_fields).

(** What a call of this module can raise; the two classes of the module
    carry their text. *)
Inductive error : Type :=
| Builtin (e : builtin_exn)
| HyperscanError
| GenericResolverError (text : string)
| DuplicationError (text : string).

(** Computations that return or raise. *)
Definition result (A : Type) : Type := error + A.

#[export] Instance result_ret : MRet result := fun _ x => inr x.
#[export] Instance result_bind : MBind result :=
  fun _ _ f m => match m with inl e => inl e | inr x => f x end.

(** ** The rule (the attributes of [GenericResolverRule] that are read) *)

Record GenericResolverRule : Type := {
  field_mapping : odict string string;
  resolve_list : odict string value;
  file_name : string;
  append_to_list : bool;
  store_db_persistent : bool
}.

(** ** The matcher library

    [hyperscan] is an external library.  A compiled [Database] is
    represented by the arguments [Database.compile] was given; which
    arguments the library takes, what a scan reports, and the serialised
    form of a database, are parameters of the development. *)

Definition HS_FLAG_CASELESS : Z := 1.
Definition HS_FLAG_SINGLEMATCH : Z := 8.

Record Database : Type := {
  expressions : list string;
  ids : list nat;
  elements : nat;
  flags : list Z
}.

(** [value_mapping]: pattern id to replacement value. *)
Definition value_mapping : Type := odict nat value.

(** I/O performed and calls of [Database.compile], kept as a ghost log
    beside the state. *)
Inductive io_event : Type :=
| Opened_for_reading (path : string)
| Compiled (n : nat)
| Written (path : string).

(** The mutable state a processor instance works on: its cache
    [self._hyperscan_databases] and the files of the persistence
    directory. *)
Record state : Type := {
  _hyperscan_databases : gmap string (Database * value_mapping);
  files : gmap string string;
  io_log : list io_event
}.

(** The attributes fixed by [__init__] (lines 42-52). *)
Record processor : Type := {
  _name : string;
  _hyperscan_database_path : string
}.

(** Computations on the state that return or raise. *)
Definition Store (A : Type) : Type := state -> state * result A.

#[export] Instance Store_ret : MRet Store := fun _ x st => (st, inr x).
#[export] Instance Store_bind : MBind Store :=
  fun _ _ f m st =>
    match m st with
    | (st', inl e) => (st', inl e)
    | (st', inr x) => f x st'
    end.

Definition raise {A} (e : error) : Store A := fun st => (st, inl e).
Definition lift {A} (r : result A) : Store A := fun st => (st, r).
Definition gets {A} (f : state -> A) : Store A := fun st => (st, inr (f st)).
Definition modify (f : state -> state) : Store unit :=
  fun st => (f st, inr tt).

Definition add_log (ev : io_event) (st : state) : state :=
  {| _hyperscan_databases := _hyperscan_databases st;
     files := files st;
     io_log := io_log st ++ [ev] |}.

Definition set_file (path data : string) (st : state) : state :=
  {| _hyperscan_databases := _hyperscan_databases st;
     files := <[path := data]> (files st);
     io_log := io_log st |}.

Definition log (ev : io_event) : Store unit := modify (add_log ev).

(** [try: body except FileNotFoundError: handler] *)
Definition try_except_FileNotFoundError {A} (body handler : Store A)
  : Store A :=
  fun st =>
    match body st with
    | (st', inl (Builtin FileNotFoundError)) => handler st'
    | r => r
    end.

Definition db_file (self : processor) (database_id : string) : string :=
  _hyperscan_database_path self +:+ "/" +:+ database_id +:+ ".db".

(** The loop of lines 168-169 and 185-187 on the value mapping:
    [value_mapping[idx] = resolve_list[pattern]] for the enumerated
    keys. *)
Fixpoint fill_value_mapping (resolve_list : odict string value)
    (todo : list (nat * string)) (acc : value_mapping) : result value_mapping :=
  match todo with
  | [] => mret acc
  | (idx, pattern) :: todo' =>
      match dict_get pattern resolve_list with
      | Some v => fill_value_mapping resolve_list todo' (dict_set idx v acc)
      | None => inl (Builtin KeyError)
      end
  end.

Section Hyperscan.
(** [loadb] and [dumpb] of the library; [loadb] may reject its input. *)
Variable loadb : string -> option Database.
Variable dumpb : Database -> string.
(** Whether [Database.compile] takes the arguments it is given; when it
    does not, the call raises the error of the library. *)
Variable hs_compiles : Database -> bool.
(** The ids a scan of a text passes to the match handler, in call
    order. *)
Variable hs_scan : Database -> string -> list nat.

(** ** The pattern database store (lines 143-197) *)

(** [_load_database] (lines 162-171) *)
Definition _load_database (self : processor) (database_id : string)
    (resolve_list : odict string value) : Store (Database * value_mapping) :=
  log (Opened_for_reading (db_file self database_id));;
  fs ← gets files;
  match fs !! db_file self database_id with
  | None => raise (Builtin FileNotFoundError)
  | Some data =>
      vm ← lift (fill_value_mapping resolve_list
                   (enumerate (dict_keys resolve_list)) []);
      match loadb data with
      | Some db => mret (db, vm)
      | None => raise HyperscanError
      end
  end.

(** [_save_database] (lines 173-178); creating the directory and
    writing the file are taken to succeed. *)
Definition _save_database (self : processor) (database : Database)
    (database_id : string) : Store unit :=
  log (Written (db_file self database_id));;
  modify (set_file (db_file self database_id) (dumpb database)).

(** The triples collected in [db_patterns] (line 186). *)
Definition db_patterns_of (resolve_list : odict string value)
  : list (string * nat * Z) :=
  (fun ip : nat * string =>
     (ip.2, ip.1, Z.lor HS_FLAG_SINGLEMATCH HS_FLAG_CASELESS))
    <$> enumerate (dict_keys resolve_list).

(** [_create_database] (lines 180-197).  The call of
    [database.compile] (lines 193-195) is logged; it raises the error of
    the library when the library does not take the expressions. *)
Definition _create_database (self : processor)
    (resolve_list : odict string value) : Store (Database * value_mapping) :=
  let db_patterns := db_patterns_of resolve_list in
  vm ← lift (fill_value_mapping resolve_list
               (enumerate (dict_keys resolve_list)) []);
  match db_patterns with
  | [] =>
      raise (GenericResolverError
               (GenericResolverError_message (_name self)
                  "No patter to compile for hyperscan database!"))
  | _ =>
      let database :=
        {| expressions := (fun t => t.1.1) <$> db_patterns;
           ids := (fun t => t.1.2) <$> db_patterns;
           elements := length db_patterns;
           flags := (fun t => t.2) <$> db_patterns |} in
      log (Compiled (length db_patterns));;
      if hs_compiles database then mret (database, vm)
      else raise HyperscanError
  end.

(** [self._hyperscan_databases[database_id] = {'db': ..., 'value_mapping': ...}]
    (lines 156-158) *)
Definition set_cache (database_id : string)
    (entry : Database * value_mapping) (st : state) : state :=
  {| _hyperscan_databases := <[database_id := entry]> (_hyperscan_databases st);
     files := files st;
     io_log := io_log st |}.

Definition cache_put (database_id : string) (entry : Database * value_mapping)
  : Store unit :=
  modify (set_cache database_id entry).

(** [_get_hyperscan_database] (lines 143-160) *)
Definition _get_hyperscan_database (self : processor)
    (rule : GenericResolverRule) : Store (Database * value_mapping) :=
  let database_id := file_name rule in
  let resolve_list := resolve_list rule in
  cache ← gets _hyperscan_databases;
  match cache !! database_id with
  | Some entry => mret entry
  | None =>
      entry ← try_except_FileNotFoundError
                (_load_database self database_id resolve_list)
                (entry ← _create_database self resolve_list;
                 (if store_db_persistent rule
                  then _save_database self entry.1 database_id
                  else mret tt);;
                 mret entry);
      cache_put database_id entry;;
      mret entry
  end.

(** The state after a sequence of calls of [_get_hyperscan_database],
    one per rule, whatever each call returned or raised. *)
Definition acquire_all (self : processor) (rules : list GenericResolverRule)
    (st : state) : state :=
  foldl (fun st rule => (_get_hyperscan_database self rule st).1) st rules.

(** ** Applying a rule (lines 102-141) *)

Definition expect {A} (e : builtin_exn) (o : option A) : result A :=
  match o with Some x => inr x | None => inl (Builtin e) end.

(** [min(result)] *)
Definition py_min (l : list nat) : result nat :=
  match l with
  | [] => inl (Builtin ValueError)
  | x :: l' => inr (foldl Nat.min x l')
  end.

(** [pattern_id_to_dest_val_map[result[result.index(min(result))]]],
    the expression of lines 126, 128, 135 and 136. *)
Definition matched_value (pattern_id_to_dest_val_map : value_mapping)
    (result : list nat) : GenericResolver.result value :=
  m ← py_min result;
  i ← expect ValueError (list_index m result);
  id ← expect IndexError (result !! i);
  expect KeyError (dict_get id pattern_id_to_dest_val_map).

(** The loop over [enumerate(keys)] of lines 121-138, entered at index
    [idx] with [keys] still to visit; [len] is [len(keys)] of the whole
    target and [dict_] the dictionary the loop variable refers to.
    [dest] is the value of [matched_value], which the source evaluates
    where it uses it.  The result is the dictionary after the loop, the
    names appended to [conflicting_fields], and the exception that ended
    the loop, if any.

    Line 125 binds the new key to the object found under the literal
    name ['key'] when there is one; when that object is a list, line 126
    appends to the list both names refer to, so both entries show the
    longer list. *)
Fixpoint write_keys (append_to_list : bool) (dest : GenericResolver.result value)
    (len idx : nat) (keys : list string) (dict_ : dict)
  : dict * list string * option error :=
  match keys with
  | [] => (dict_, [], None)
  | key :: rest =>
      if negb (dict_mem key dict_) && (idx =? len - 1) then
        (* lines 123-129, left by [break] *)
        if append_to_list then
          match dict_get "key" dict_, dest with
          | None, inr v => (dict_set key (VList [v]) dict_, [], None)
          | None, inl e => (dict_set key (VList []) dict_, [], Some e)
          | Some (VList l), inr v =>
              (dict_set "key" (VList (l ++ [v]))
                 (dict_set key (VList (l ++ [v])) dict_), [], None)
          | Some (VList l), inl e => (dict_set key (VList l) dict_, [], Some e)
          | Some x, _ => (dict_set key x dict_, [], Some (Builtin AttributeError))
          end
        else
          match dest with
          | inr v => (dict_set key v dict_, [], None)
          | inl e => (dict_, [], Some e)
          end
      else
        (* line 130 *)
        let dict_1 :=
          if negb (dict_mem key dict_) then dict_set key (VDict []) dict_
          else dict_ in
        match dict_get key dict_1 with
        | None => (dict_1, [], Some (Builtin KeyError))
        | Some (VDict sub) =>
            (* lines 131-132: the loop goes on inside [dict_[key]] *)
            let '(sub', conflicting, exc) :=
              write_keys append_to_list dest len (S idx) rest sub in
            (dict_set key (VDict sub') dict_1, conflicting, exc)
        | Some x =>
            if append_to_list && isinstance_list x then
              (* lines 135-136 *)
              match x, dest with
              | VList l, inr v =>
                  write_keys append_to_list dest len (S idx) rest
                    (if negb (py_in v l)
                     then dict_set key (VList (l ++ [v])) dict_1
                     else dict_1)
              | _, inl e => (dict_1, [], Some e)
              | _, inr _ => (dict_1, [], Some (Builtin TypeError))
              end
            else
              (* line 138; the loop goes on with the same [dict_] *)
              let '(dict_2, conflicting, exc) :=
                write_keys append_to_list dest len (S idx) rest dict_1 in
              (dict_2, key :: conflicting, exc)
        end
  end.

(** [hyperscan_db.scan(src_val, match_event_handler=on_match)] (lines
    112-117): the handler collects the reported ids in [result].  The
    library takes text only. *)
Definition scan (hyperscan_db : Database) (src_val : value)
  : GenericResolver.result (list nat) :=
  match src_val with
  | VStr s => inr (hs_scan hyperscan_db s)
  | _ => inl (Builtin TypeError)
  end.

(** The body of the loop over [rule.field_mapping.items()] (lines
    108-138) for one pair.  The event is handed on as a tree: what the
    body leaves is what the next pair finds, up to the sharing of
    objects described at the head of the file. *)
Definition resolve_field (hyperscan_db : Database)
    (pattern_id_to_dest_val_map : value_mapping) (append_to_list : bool)
    (event : dict) (resolve_source resolve_target : string)
  : dict * list string * option error :=
  let keys := split_dots resolve_target in
  let src_val := _get_dotted_field_value event resolve_source in
  if truthy_opt src_val then
    match scan hyperscan_db (default VNone src_val) with
    | inl e => (event, [], Some e)
    | inr [] => (event, [], None)
    | inr result =>
        write_keys append_to_list
          (matched_value pattern_id_to_dest_val_map result)
          (length keys) 0 keys event
    end
  else (event, [], None).

(** The loop of line 107; [conflicting_fields] is the list of line 103. *)
Fixpoint resolve_fields (hyperscan_db : Database)
    (pattern_id_to_dest_val_map : value_mapping) (append_to_list : bool)
    (items : list (string * string)) (event : dict)
    (conflicting_fields : list string)
  : dict * list string * option error :=
  match items with
  | [] => (event, conflicting_fields, None)
  | (resolve_source, resolve_target) :: items' =>
      let '(event', conflicting, exc) :=
        resolve_field hyperscan_db pattern_id_to_dest_val_map append_to_list
          event resolve_source resolve_target in
      match exc with
      | Some e => (event', conflicting_fields ++ conflicting, Some e)
      | None =>
          resolve_fields hyperscan_db pattern_id_to_dest_val_map
            append_to_list items' event' (conflicting_fields ++ conflicting)
      end
  end.

(** [_apply_rules] (lines 102-141): the state and the event as the call
    leaves them, and whether it returned or raised. *)
Definition _apply_rules (self : processor) (event : dict)
    (rule : GenericResolverRule) (st : state)
  : state * dict * GenericResolver.result unit :=
  match _get_hyperscan_database self rule st with
  | (st', inl e) => (st', event, inl e)
  | (st', inr (hyperscan_db, pattern_id_to_dest_val_map)) =>
      let '(event', conflicting_fields, exc) :=
        resolve_fields hyperscan_db pattern_id_to_dest_val_map
          (append_to_list rule) (field_mapping rule) event [] in
      match exc, conflicting_fields with
      | Some e, _ => (st', event', inl e)
      | None, [] => (st', event', inr tt)
      | None, _ =>
          (st', event',
           inl (DuplicationError
                  (DuplicationError_message (_name self) conflicting_fields)))
      end
  end.

End Hyperscan.
End GenericResolver.

(* ===================================================================== *)
(** * template_replacer/processor.py *)
(* ===================================================================== *)

Module TemplateReplacer.
Import Py Accessor.

(** ** Exceptions (lines 27-31) *)

(** [TemplateReplacerError.__init__]: the text the exception carries. *)
Definition TemplateReplacerError_message (name message : string) : string :=
  "TemplateReplacer (" +:+ name +:+ "): " +:+ message.

Inductive error : Type :=
| Builtin (e : builtin_exn)
| TemplateReplacerError (text : string).

Definition result (A : Type) : Type := error + A.

#[export] Instance result_ret : MRet result := fun _ x => inr x.
#[export] Instance result_bind : MBind result :=
  fun _ _ f m => match m with inl e => inl e | inr x => f x end.

Definition builtin {A} (r : builtin_exn + A) : result A :=
  match r with inl e => inl (Builtin e) | inr x => inr x end.

Definition expect {A} (e : builtin_exn) (o : option A) : result A :=
  match o with Some x => inr x | None => inl (Builtin e) end.

(** ** Configuration and instance *)

(** The [pattern] argument of [__init__] (lines 56-60). *)
Record pattern : Type := {
  target_field : string;
  fields : list string;
  delimiter : string;
  allowed_delimiter_field : string
}.

(** The attributes [__init__] sets. *)
Record processor : Type := {
  _name : string;
  _target_field : string;
  _target_field_split : list string;
  _fields : list string;
  _mapping : value
}.

(** ** Building the index (lines 67-96) *)

(** Lines 69-75: the split key cut into [left], [middle] and [right]
    and put together again.  [nfields] is [len(self._fields)]. *)
Definition slice_offset (nfields allow_delimiter_index : nat) : Z :=
  (- (Z.of_nat nfields - Z.of_nat allow_delimiter_index - 1))%Z.

Definition left_of (allow_delimiter_index : nat) (split_key : list string)
  : list string :=
  slice_to (Z.of_nat allow_delimiter_index) split_key.

Definition middle_and_right_of (allow_delimiter_index : nat)
    (split_key : list string) : list string :=
  slice_from (Z.of_nat allow_delimiter_index) split_key.

Definition middle_of (nfields allow_delimiter_index : nat)
    (split_key : list string) : list string :=
  slice_to (slice_offset nfields allow_delimiter_index)
    (middle_and_right_of allow_delimiter_index split_key).

Definition right_of (nfields allow_delimiter_index : nat)
    (split_key : list string) : list string :=
  slice_from (slice_offset nfields allow_delimiter_index)
    (middle_and_right_of allow_delimiter_index split_key).

Definition recombine (nfields allow_delimiter_index : nat)
    (split_key : list string) : list string :=
  left_of allow_delimiter_index split_key ++
  [py_join "-" (middle_of nfields allow_delimiter_index split_key)] ++
  right_of nfields allow_delimiter_index split_key.

(** The text of the error of lines 78-81. *)
Definition not_enough_delimiters (name template_path : string)
    (fields : list string) : string :=
  TemplateReplacerError_message name
    ("Not enough delimiters in '" +:+ template_path +:+ "' " +:+
     "to populate " +:+ py_repr (VList (VStr <$> fields))).

(** The loop of lines 85-91, entered at index [idx] with
    [recombined_keys] still to visit and [_dict] the object the loop
    variable refers to.  The result is that object after the loop: line
    89 moves the variable to [_dict[recombined_key]], so what the rest
    of the loop does to it shows under that key. *)
Fixpoint insert_keys (nfields idx : nat) (recombined_keys : list string)
    (value : Py.value) (_dict : Py.value) : result Py.value :=
  match recombined_keys with
  | [] => mret _dict
  | recombined_key :: rest =>
      if idx <? nfields - 1 then
        found ← builtin (py_get _dict recombined_key);
        _dict1 ← (if negb (truthy_opt found)
                  then builtin (py_setitem _dict recombined_key (VDict []))
                  else mret _dict);
        child ← builtin (py_getitem _dict1 recombined_key);
        child' ← insert_keys nfields (S idx) rest value child;
        builtin (py_setitem _dict1 recombined_key child')
      else
        _dict1 ← builtin (py_setitem _dict recombined_key value);
        insert_keys nfields (S idx) rest value _dict1
  end.

(** [try: ... except ValueError as error: raise TemplateReplacerError]
    (lines 83, 93-96) *)
Definition except_ValueError {A} (name : string) (body : result A) : result A :=
  match body with
  | inl (Builtin ValueError) =>
      inl (TemplateReplacerError
             (TemplateReplacerError_message name
                "template_replacer template is invalid!"))
  | r => r
  end.

(** The body of the loop of line 67 for one entry of the template. *)
Definition add_entry (name template_path : string) (fields : list string)
    (delimiter : string) (allow_delimiter_index : nat)
    (key : string) (value : Py.value) (_mapping : Py.value) : result Py.value :=
  split_key ← builtin (py_split delimiter key);
  let recombined_keys :=
    recombine (length fields) allow_delimiter_index split_key in
  if bool_decide (length recombined_keys ≠ length fields) then
    inl (TemplateReplacerError
           (not_enough_delimiters name template_path fields))
  else
    except_ValueError name
      (insert_keys (length fields) 0 recombined_keys value _mapping).

(** The loop of line 67 over [template.items()]. *)
Fixpoint add_entries (name template_path : string) (fields : list string)
    (delimiter : string) (allow_delimiter_index : nat)
    (items : list (string * Py.value)) (_mapping : Py.value)
  : result Py.value :=
  match items with
  | [] => mret _mapping
  | (key, value) :: items' =>
      _mapping' ← add_entry name template_path fields delimiter
                    allow_delimiter_index key value _mapping;
      add_entries name template_path fields delimiter allow_delimiter_index
        items' _mapping'
  end.

(** [__init__] (lines 50-96).  [template] is what [yaml.load] returns
    for the file at [template_path]: a mapping from composite keys to
    values, in file order. *)
Definition __init__ (name template_path : string) (pat : pattern)
    (template : odict string Py.value) : result processor :=
  allow_delimiter_index ←
    expect ValueError (list_index (allowed_delimiter_field pat) (fields pat));
  mapping ← add_entries name template_path (fields pat) (delimiter pat)
              allow_delimiter_index template (VDict []);
  mret {| _name := name;
          _target_field := target_field pat;
          _target_field_split := split_dots (target_field pat);
          _fields := fields pat;
          _mapping := mapping |}.

(** ** Applying the template (lines 148-176) *)

(** The loop of [_field_exists] (lines 171-176). *)
Fixpoint field_exists_from (dict_ : value) (fields : list string)
  : result bool :=
  match fields with
  | [] => mret true
  | field :: rest =>
      present ← builtin (py_contains dict_ field);
      if present : bool then
        dict_' ← builtin (py_getitem dict_ field);
        field_exists_from dict_' rest
      else mret false
  end.

(** [_field_exists] (lines 167-176) *)
Definition _field_exists (event : dict) (dotted_field : string) : result bool :=
  field_exists_from (VDict event) (split_dots dotted_field).

(** The loop of lines 150-158.  [None] stands for the two [return]s
    inside the loop, [Some] for the object reached when every field has
    been consumed. *)
Fixpoint lookup_fields (event : dict) (fields : list string) (_dict : value)
  : result (option value) :=
  match fields with
  | [] => mret (Some _dict)
  | field :: rest =>
      let dotted_field_value := _get_dotted_field_value event field in
      if is_None dotted_field_value then mret None
      else
        let value := py_str (default VNone dotted_field_value) in
        found ← builtin (py_get _dict value);
        if is_None found then mret None
        else lookup_fields event rest (default VNone found)
  end.

(** Lines 162-165: walk [_event] down the subfields and assign under
    the last name.  The result is the object [_event] started at, after
    the assignment. *)
Fixpoint assign_at (_event : value) (subfields : list string) (last : string)
    (payload : value) : result value :=
  match subfields with
  | [] => builtin (py_setitem _event last payload)
  | subfield :: rest =>
      child ← builtin (py_getitem _event subfield);
      child' ← assign_at child rest last payload;
      builtin (py_setitem _event subfield child')
  end.

(** [_apply_rules] (lines 148-165).  The assignment of line 165 is the
    only statement that changes the event, and the last one: a call
    that raises leaves the event as it was. *)
Definition _apply_rules (self : processor) (event : dict) : result dict :=
  found ← lookup_fields event (_fields self) (_mapping self);
  match found with
  | None => mret event
  | Some _dict =>
      if is_None (Some _dict) then mret event
      else
        exists_ ← _field_exists event (_target_field self);
        if exists_ : bool then
          last_name ← expect IndexError (last (_target_field_split self));
          event' ← assign_at (VDict event)
                     (slice_to (-1) (_target_field_split self)) last_name _dict;
          match event' with
          | VDict d => mret d
          | _ => inl (Builtin TypeError)
          end
        else mret event
  end.

End TemplateReplacer.

(* ===================================================================== *)
(** * Sample inputs *)
(* ===================================================================== *)

Module Samples.
Import Py.

Definition lower (c : ascii) : ascii :=
  let n := Ascii.nat_of_ascii c in
  if (65 <=? n) && (n <=? 90) then Ascii.ascii_of_nat (n + 32) else c.

Fixpoint lowercase (s : string) : string :=
  match s with
  | EmptyString => ""
  | String c s' => String (lower c) (lowercase s')
  end.

(** A stand-in for the matcher on expressions without metacharacters:
    an expression matches a text that contains it, whatever the case,
    and the ids are reported in the order of the table. *)
Definition literal_scan (db : GenericResolver.Database) (s : string) : list nat :=
  (fun p : string * nat => p.2) <$>
  filter (fun p : string * nat =>
            is_substring (lowercase p.1) (lowercase s) = true)
         (zip (GenericResolver.expressions db) (GenericResolver.ids db)).

(** A stand-in for the compiler of the library, for the same
    expressions: it takes the expressions that have none of the
    characters the library reads as syntax, and refuses the others (an
    opening parenthesis alone, for one). *)
Definition metacharacters : string := "()[]{}*+?|.^$".

Definition literal_compiles (db : GenericResolver.Database) : bool :=
  forallb (fun e : string =>
             forallb (fun c => negb (has_char c e))
               (String.list_ascii_of_string metacharacters))
          (GenericResolver.expressions db).


(** A serialised form for the samples: the expressions, one per line;
    nothing is read back. *)
Definition sample_dumpb (db : GenericResolver.Database) : string :=
  py_join (String (Ascii.ascii_of_nat 10) "") (GenericResolver.expressions db).

Definition sample_loadb (data : string) : option GenericResolver.Database :=
  None.

Definition resolver : GenericResolver.processor :=
  {| GenericResolver._name := "test";
     GenericResolver._hyperscan_database_path := "/tmp/dbs" |}.

Definition fresh : GenericResolver.state :=
  {| GenericResolver._hyperscan_databases := ∅;
     GenericResolver.files := ∅;
     GenericResolver.io_log := [] |}.

(** A rule with one field mapping from [src], and two patterns that
    both match the text [abc]. *)
Definition rule_to (target : string) (append : bool) (persistent : bool)
  : GenericResolver.GenericResolverRule :=
  {| GenericResolver.field_mapping := [("src", target)];
     GenericResolver.resolve_list := [("abc", VStr "X"); ("ab", VStr "Y")];
     GenericResolver.file_name := "rule_file";
     GenericResolver.append_to_list := append;
     GenericResolver.store_db_persistent := persistent |}.

(** A rule with two field mappings, from [src] to [a.b] and from
    [src2] to [c]. *)
Definition rule_two_targets : GenericResolver.GenericResolverRule :=
  {| GenericResolver.field_mapping := [("src", "a.b"); ("src2", "c")];
     GenericResolver.resolve_list := [("abc", VStr "X"); ("ab", VStr "Y")];
     GenericResolver.file_name := "rule_file";
     GenericResolver.append_to_list := false;
     GenericResolver.store_db_persistent := false |}.


(** The event and the outcome of applying [rule_to target append] to
    [event] in a fresh processor. *)
Definition resolve (event : dict) (target : string) (append : bool)
  : dict * GenericResolver.result unit :=
  let '(_, event', outcome) :=
    GenericResolver._apply_rules sample_loadb sample_dumpb literal_compiles literal_scan
      resolver event (rule_to target append false) fresh in
  (event', outcome).

(** Template configurations over the delimiter [-]. *)
Definition two_fields (allowed : string) : TemplateReplacer.pattern :=
  {| TemplateReplacer.target_field := "target.sub";
     TemplateReplacer.fields := ["a"; "b"];
     TemplateReplacer.delimiter := "-";
     TemplateReplacer.allowed_delimiter_field := allowed |}.

Definition three_fields : TemplateReplacer.pattern :=
  {| TemplateReplacer.target_field := "target";
     TemplateReplacer.fields := ["a"; "b"; "c"];
     TemplateReplacer.delimiter := "-";
     TemplateReplacer.allowed_delimiter_field := "a" |}.

(** A reader for the serialised form of [sample_dumpb]: one expression
    per line, with the ids and flags [_create_database] gives. *)
Definition line_loadb (data : string) : option GenericResolver.Database :=
  let lines := split_go (String (Ascii.ascii_of_nat 10) "") 0 "" data in
  Some {| GenericResolver.expressions := lines;
          GenericResolver.ids := seq 0 (length lines);
          GenericResolver.elements := length lines;
          GenericResolver.flags := replicate (length lines) 9%Z |}.

(** A rule without patterns. *)
Definition rule_without_patterns : GenericResolver.GenericResolverRule :=
  {| GenericResolver.field_mapping := [("src", "target")];
     GenericResolver.resolve_list := [];
     GenericResolver.file_name := "rule_file";
     GenericResolver.append_to_list := false;
     GenericResolver.store_db_persistent := true |}.

(** A persistence directory with a database file for [rule_file] that
    was compiled from the one pattern [old]. *)
Definition with_old_file : GenericResolver.state :=
  {| GenericResolver._hyperscan_databases := ∅;
     GenericResolver.files := {[ "/tmp/dbs/rule_file.db" := "old" ]};
     GenericResolver.io_log := [] |}.

End Samples.

(* ===================================================================== *)
(** * Notions used in the statements *)
(* ===================================================================== *)

Module Notions.
Import Py Accessor.


(** The number of elements of [l] that equal [v]. *)
Definition occurrences (v : value) (l : list value) : nat :=
  length (filter (fun x => py_eq v x = true) l).

(** An index of depth [n]: a dictionary whose entries, while more than
    one level is left, are non-empty indexes of depth [n - 1]; at the
    last level the entries are the payloads, of any shape. *)
Fixpoint wf_index (n : nat) (v : value) : Prop :=
  match n with
  | O => True
  | S m =>
      exists d, v = VDict d /\
        (m ≠ 0 ->
         Forall (fun kx : string * value =>
                   truthy kx.2 = true /\ wf_index m kx.2) d)
  end.

(** The keys a composite key of the template file recombines to, when
    it can be split. *)
Definition entry_keys (fields : list string) (delimiter : string)
    (allow_delimiter_index : nat) (key : string) : option (list string) :=
  match py_split delimiter key with
  | inr split_key =>
      Some (TemplateReplacer.recombine (length fields) allow_delimiter_index
              split_key)
  | inl _ => None
  end.

(** The configured fields of [event] read, in order, as the strings
    [keys]. *)
Definition fields_read_as (event : dict) (fields keys : list string) : Prop :=
  Forall2 (fun field key =>
             exists x, _get_dotted_field_value event field = Some x /\
                       x ≠ VNone /\ py_str x = key) fields keys.

(** What a lookup that ends on [found] hands on: nothing when the key
    is missing or the payload is [None]. *)
Definition not_None (found : option value) : option value :=
  match found with
  | Some VNone | None => None
  | Some v => Some v
  end.

(** What a write of the resolver may do to a value it finds in the
    event: a dictionary stays a dictionary; a list keeps its elements
    in front, and is left alone by a rule that does not append;
    anything else is left alone. *)
Definition kept (append : bool) (x x' : value) : Prop :=
  match x with
  | VDict _ => isinstance_dict x' = true
  | VList l =>
      if append then exists l', x' = VList l' /\ l `prefix_of` l'
      else x' = x
  | _ => x' = x
  end.

(** Every path of [d] is a path of [d'], and what it leads to is
    [kept]. *)
Definition only_grows (append : bool) (d d' : dict) : Prop :=
  forall path x,
    get_path (VDict d) path = Some x ->
    exists x', get_path (VDict d') path = Some x' /\ kept append x x'.



(** The state of a new processor instance over the files a former one
    left. *)
Definition restart (st : GenericResolver.state) : GenericResolver.state :=
  {| GenericResolver._hyperscan_databases := ∅;
     GenericResolver.files := GenericResolver.files st;
     GenericResolver.io_log := [] |}.

(** A field mapping the resolver passes over: its source is missing
    from the event, or falsy, or a text that no pattern of the database
    matches. *)
Definition skipped (hs_scan : GenericResolver.Database -> string -> list nat)
    (db : GenericResolver.Database) (event : dict) (item : string * string)
  : Prop :=
  truthy_opt (_get_dotted_field_value event item.1) = false \/
  exists text, _get_dotted_field_value event item.1 = Some (VStr text) /\
               hs_scan db text = [].


(** The first key of [path] that is missing is missing from a
    dictionary: the keys before it lead through dictionaries. *)
Fixpoint missing_in_mapping (v : value) (path : list string) : Prop :=
  match path with
  | [] => False
  | key :: rest =>
      match v with
      | VDict d =>
          match dict_get key d with
          | None => True
          | Some x => missing_in_mapping x rest
          end
      | _ => False
      end
  end.

End Notions.

(* ===================================================================== *)
(** * Facts about the Python fragment *)
(* ===================================================================== *)

Module PyFacts.
Import Py.

Lemma string_eqb_refl (s : string) : String.eqb s s = true.
Proof. apply String.eqb_refl. Qed.

(** [==] is reflexive: a value equals itself. *)
Lemma py_eq_refl (v : value) : py_eq v v = true.
Proof.
  induction v as [| b | z | s | l IH | d IH] using value_ind'; simpl.
  - done.
  - by destruct b.
  - apply Z.eqb_refl.
  - apply string_eqb_refl.
  - induction IH as [| x l' Hx _ IHl]; [done |].
    by rewrite Hx, IHl.
  - rewrite Nat.eqb_refl. simpl.
    apply forallb_forall. intros kx Hin.
    apply existsb_exists. exists kx. split; [done |].
    rewrite string_eqb_refl. simpl.
    rewrite Forall_forall in IH. apply IH. by apply list_elem_of_In.
Qed.

Lemma py_in_app (v : value) (l1 l2 : list value) :
  py_in v (l1 ++ l2) = py_in v l1 || py_in v l2.
Proof. unfold py_in. apply existsb_app. Qed.

(** After [l.append(v)], [v in l] holds. *)
Lemma py_in_appended (v : value) (l : list value) : py_in v (l ++ [v]) = true.
Proof.
  rewrite py_in_app. simpl. rewrite py_eq_refl.
  by destruct (py_in v l).
Qed.

Section odict_facts.
Context {K V : Type} `{EqDecision K}.
Implicit Types (k : K) (v : V) (d : odict K V).

Lemma dict_get_set_eq k v d : dict_get k (dict_set k v d) = Some v.
Proof.
  induction d as [| [k' v'] d IH]; simpl.
  - by rewrite decide_True.
  - destruct (decide (k = k')) as [-> | Hne]; simpl.
    + by rewrite decide_True.
    + by rewrite decide_False.
Qed.

Lemma dict_get_set_ne k k' v d :
  k ≠ k' -> dict_get k' (dict_set k v d) = dict_get k' d.
Proof.
  intros Hne. induction d as [| [k0 v0] d IH]; simpl.
  - by rewrite decide_False.
  - destruct (decide (k = k0)) as [-> | Hne0]; simpl.
    + by rewrite !decide_False.
    + by rewrite IH.
Qed.

Lemma dict_mem_true k d : dict_mem k d = true <-> is_Some (dict_get k d).
Proof.
  unfold dict_mem. destruct (dict_get k d) as [x |].
  - split; [by eexists | done].
  - split; [done | by intros [x Hx]].
Qed.

Lemma dict_mem_false k d : dict_mem k d = false <-> dict_get k d = None.
Proof. unfold dict_mem. by destruct (dict_get k d). Qed.

(** Writing back what is already there changes nothing. *)
Lemma dict_set_same k v d : dict_get k d = Some v -> dict_set k v d = d.
Proof.
  induction d as [| [k' v'] d IH]; simpl; [done |].
  destruct (decide (k = k')) as [-> | Hne]; intros Hget.
  - by inversion Hget.
  - by rewrite IH.
Qed.

(** The later of two writes to a key is the one that stays. *)
Lemma dict_set_set k v v' d : dict_set k v' (dict_set k v d) = dict_set k v' d.
Proof.
  induction d as [| [k0 v0] d IH]; simpl.
  - by rewrite decide_True.
  - destruct (decide (k = k0)) as [-> | Hne]; simpl.
    + by rewrite decide_True.
    + by rewrite decide_False, IH.
Qed.

Lemma dict_get_elem_of k v d : dict_get k d = Some v -> (k, v) ∈ d.
Proof.
  induction d as [| [k' v'] d IH]; simpl; [done |].
  destruct (decide (k = k')) as [-> | Hne]; intros Hget.
  - inversion Hget. left.
  - right. by apply IH.
Qed.

Lemma dict_get_is_Some k d : k ∈ dict_keys d -> is_Some (dict_get k d).
Proof.
  unfold dict_keys. induction d as [| [k' v'] d IH]; simpl.
  - by intros ?%elem_of_nil.
  - intros [-> | Hin]%elem_of_cons.
    + rewrite decide_True by done. by eexists.
    + destruct (decide (k = k')); [by eexists | by apply IH].
Qed.

(** A key that is not there yet goes last. *)
Lemma dict_set_new k v d : k ∉ dict_keys d -> dict_set k v d = d ++ [(k, v)].
Proof.
  unfold dict_keys. induction d as [| [k' v'] d IH]; simpl; [done |].
  intros Hnin. apply not_elem_of_cons in Hnin as [Hne Hnin].
  by rewrite decide_False, IH.
Qed.

(** [dict_set] keeps a property that holds of every entry and of the
    new one. *)
Lemma dict_set_Forall (P : K * V -> Prop) k v d :
  (forall k0, P (k0, v)) -> Forall P d -> Forall P (dict_set k v d).
Proof.
  intros Hv. induction 1 as [| [k' v'] d Hx Hd IH]; simpl.
  - by constructor.
  - destruct (decide (k = k')); constructor; auto.
Qed.

Lemma dict_set_not_nil k v d : dict_set k v d ≠ [].
Proof. destruct d as [| [k' v'] d]; simpl; [done |]. by destruct (decide (k = k')). Qed.

End odict_facts.

(** ** Slices *)

Lemma slice_to_nat {A} (n : nat) (l : list A) : slice_to (Z.of_nat n) l = take n l.
Proof.
  unfold slice_to, slice_bound.
  destruct (Z.ltb_spec (Z.of_nat n) 0) as [Hlt | Hge]; [lia |].
  destruct (decide (n ≤ length l)) as [Hle | Hgt].
  - f_equal. lia.
  - replace (Z.to_nat (Z.min (Z.of_nat n) (Z.of_nat (length l)))) with (length l) by lia.
    rewrite !take_ge by lia. done.
Qed.

Lemma slice_from_nat {A} (n : nat) (l : list A) :
  slice_from (Z.of_nat n) l = drop n l.
Proof.
  unfold slice_from, slice_bound.
  destruct (Z.ltb_spec (Z.of_nat n) 0) as [Hlt | Hge]; [lia |].
  destruct (decide (n ≤ length l)) as [Hle | Hgt].
  - f_equal. lia.
  - replace (Z.to_nat (Z.min (Z.of_nat n) (Z.of_nat (length l)))) with (length l) by lia.
    rewrite !drop_ge by lia. done.
Qed.

(** [l[:-k]] and [l[-k:]] for a positive [k]: the last [k] elements are
    cut off, all of them when there are fewer. *)
Lemma slice_to_neg {A} (k : nat) (l : list A) :
  0 < k -> slice_to (- Z.of_nat k) l = take (length l - k) l.
Proof.
  intros Hk. unfold slice_to, slice_bound.
  destruct (Z.ltb_spec (- Z.of_nat k) 0) as [Hlt | Hge]; [| lia].
  f_equal. lia.
Qed.

Lemma slice_from_neg {A} (k : nat) (l : list A) :
  0 < k -> slice_from (- Z.of_nat k) l = drop (length l - k) l.
Proof.
  intros Hk. unfold slice_from, slice_bound.
  destruct (Z.ltb_spec (- Z.of_nat k) 0) as [Hlt | Hge]; [| lia].
  f_equal. lia.
Qed.

End PyFacts.

(* ===================================================================== *)
(** * The resolver: choice among several matches *)
(* ===================================================================== *)

Module ResolverChoice.
Import Py Accessor GenericResolver Notions PyFacts.






Section two_scans.
Variables scan1 scan2 : Database -> string -> list nat.
Hypothesis same_matches : forall db s, scan1 db s ≡ₚ scan2 db s.



End two_scans.

(** In overwrite mode, a write to a target that was absent and that
    ended without conflict or exception had a replacement to write, and
    left it at the target path. *)
Lemma write_keys_absent (dest : GenericResolver.result value) (len idx : nat)
    (keys : list string) (d d' : dict) :
  idx + length keys = len ->
  get_path (VDict d) keys = None ->
  write_keys false dest len idx keys d = (d', [], None) ->
  exists v, dest = inr v /\ get_path (VDict d') keys = Some v.
Proof.
  revert idx d d'. induction keys as [| key rest IH]; intros idx d d' Hlen Hget;
    [done |].
  simpl in Hlen. cbn [write_keys]. cbn [get_path] in Hget.
  destruct (dict_mem key d) eqn:Hmem; cbn [negb andb].
  - (* the key is there *)
    apply dict_mem_true in Hmem as [x Hx]. rewrite Hx in Hget |- *.
    destruct x as [| b | z | s | l | sub]; cbn [andb isinstance_list];
      try (destruct (write_keys _ _ _ _ rest d) as [[? ?] ?]; by intros [=]).
    destruct (write_keys false dest len (S idx) rest sub)
      as [[sub' c] exc] eqn:Hw.
    intros [= <- -> ->].
    destruct (IH (S idx) sub sub') as (v & -> & Hv); [lia | done | done |].
    exists v. split; [done |]. cbn [get_path]. by rewrite dict_get_set_eq.
  - (* the key is missing *)
    apply dict_mem_false in Hmem.
    destruct (Nat.eqb_spec idx (len - 1)) as [Hlast | Hmore].
    + destruct dest as [e | v]; intros [= <-]. exists v. split; [done |].
      cbn [get_path]. rewrite dict_get_set_eq.
      destruct rest; [done | simpl in Hlen; lia].
    + rewrite dict_get_set_eq.
      destruct (write_keys false dest len (S idx) rest [])
        as [[sub' c] exc] eqn:Hw.
      intros [= <- -> ->].
      destruct (IH (S idx) [] sub') as (v & -> & Hv); [lia | | done |].
      { destruct rest; [simpl in Hlen; lia | done]. }
      exists v. split; [done |]. cbn [get_path]. by rewrite dict_get_set_eq.
Qed.

End ResolverChoice.

(* ===================================================================== *)
(** * The resolver: writes and conflicts *)
(* ===================================================================== *)

Module ResolverWrites.
Import Py Accessor GenericResolver Notions PyFacts.

(** ** Writing to a target that holds a list *)

(** When the target holds a list that has the value already, the write
    changes nothing. *)
Lemma write_keys_present (v : value) (len idx : nat) (keys : list string)
    (d : dict) (l : list value) :
  get_path (VDict d) keys = Some (VList l) ->
  py_in v l = true ->
  write_keys true (inr v) len idx keys d = (d, [], None).
Proof.
  revert idx d. induction keys as [| key rest IH]; intros idx d Hget Hin;
    [done |].
  cbn [get_path] in Hget. cbn [write_keys].
  destruct (dict_get key d) as [x |] eqn:Hx; [| done].
  assert (dict_mem key d = true) as -> by (apply dict_mem_true; by eexists).
  cbn [negb andb]. rewrite Hx.
  destruct x as [| b | z | s | l' | sub]; try by destruct rest.
  - (* the list, under the last key *)
    destruct rest; [| done]. inversion Hget; subst l'.
    cbn [andb isinstance_list]. by rewrite Hin.
  - (* a dictionary on the way *)
    rewrite (IH (S idx) sub Hget Hin). by rewrite (dict_set_same _ _ _ Hx).
Qed.

(** When the target holds a list, the write appends the value unless
    the list has it, and meets no conflict. *)
Lemma write_keys_list (v : value) (len idx : nat) (keys : list string)
    (d : dict) (l : list value) :
  get_path (VDict d) keys = Some (VList l) ->
  exists d1,
    write_keys true (inr v) len idx keys d = (d1, [], None) /\
    get_path (VDict d1) keys =
      Some (VList (if py_in v l then l else l ++ [v])).
Proof.
  revert idx d. induction keys as [| key rest IH]; intros idx d Hget; [done |].
  cbn [get_path] in Hget. cbn [write_keys].
  destruct (dict_get key d) as [x |] eqn:Hx; [| done].
  assert (dict_mem key d = true) as -> by (apply dict_mem_true; by eexists).
  cbn [negb andb]. rewrite Hx.
  destruct x as [| b | z | s | l' | sub]; try by destruct rest.
  - destruct rest; [| done]. inversion Hget; subst l'.
    cbn [andb isinstance_list write_keys].
    destruct (py_in v l); cbn [negb]; eexists; (split; [done |]);
      cbn [get_path].
    + by rewrite Hx.
    + by rewrite dict_get_set_eq.
  - destruct (IH (S idx) sub Hget) as (sub1 & -> & Hsub1).
    eexists. split; [done |]. cbn [get_path]. by rewrite dict_get_set_eq.
Qed.

Lemma occurrences_absent (v : value) (l : list value) :
  py_in v l = false -> occurrences v l = 0.
Proof.
  unfold occurrences, py_in. induction l as [| x l IH]; simpl; [done |].
  intros [Hx Hl]%orb_false_iff.
  rewrite filter_cons_False by (rewrite Hx; done). by apply IH.
Qed.

Lemma occurrences_app (v : value) (l1 l2 : list value) :
  occurrences v (l1 ++ l2) = occurrences v l1 + occurrences v l2.
Proof. unfold occurrences. by rewrite filter_app, length_app. Qed.

(** C7.  In append mode, on a target that holds a list: the first write
    of a value appends it unless the list has it already, so the
    elements that were there keep their places; the second write of the
    same value changes nothing; the value is in the list afterwards, and
    exactly once if it was not there before. *)
Theorem append_unique_twice (v : value) (keys : list string) (d : dict)
    (l : list value) :
  get_path (VDict d) keys = Some (VList l) ->
  exists d1 l1,
    write_keys true (inr v) (length keys) 0 keys d = (d1, [], None) /\
    write_keys true (inr v) (length keys) 0 keys d1 = (d1, [], None) /\
    get_path (VDict d1) keys = Some (VList l1) /\
    l1 = (if py_in v l then l else l ++ [v]) /\
    l `prefix_of` l1 /\
    py_in v l1 = true /\
    (py_in v l = false -> occurrences v l1 = 1).
Proof.
  intros Hget.
  destruct (write_keys_list v (length keys) 0 keys d l Hget) as (d1 & Hw & Hd1).
  exists d1, (if py_in v l then l else l ++ [v]).
  assert (py_in v (if py_in v l then l else l ++ [v]) = true) as Hin1.
  { destruct (py_in v l) eqn:Hin; [done | apply py_in_appended]. }
  split; [done |]. split; [by eapply write_keys_present |].
  split; [done |]. split; [done |]. split.
  - destruct (py_in v l); [done | by apply prefix_app_r].
  - split; [done |]. intros Hnot. rewrite Hnot.
    rewrite occurrences_app, (occurrences_absent _ _ Hnot).
    unfold occurrences. rewrite filter_cons_True by apply py_eq_refl. done.
Qed.

(** [append_unique_twice] on the target [tags.seen], which holds a list
    without the value. *)
Lemma append_unique_twice_witness :
  exists d1 l1,
    write_keys true (inr (VStr "X")) 2 0 ["tags"; "seen"]
      [("tags", VDict [("seen", VList [VStr "A"; VStr "B"])])] = (d1, [], None) /\
    write_keys true (inr (VStr "X")) 2 0 ["tags"; "seen"] d1 = (d1, [], None) /\
    get_path (VDict d1) ["tags"; "seen"] = Some (VList l1) /\
    l1 = [VStr "A"; VStr "B"; VStr "X"] /\
    [VStr "A"; VStr "B"] `prefix_of` l1 /\
    py_in (VStr "X") l1 = true /\
    (py_in (VStr "X") [VStr "A"; VStr "B"] = false ->
     occurrences (VStr "X") l1 = 1).
Proof.
  apply (append_unique_twice (VStr "X") ["tags"; "seen"]
           [("tags", VDict [("seen", VList [VStr "A"; VStr "B"])])]
           [VStr "A"; VStr "B"]).
  reflexivity.
Defined.

(** ** Conflicts *)


(** X1.  A conflict at the last key of the target, every key before it
    leading through a dictionary: the name of that key is recorded and
    the document stays as it was. *)
Lemma conflict_at_last_key_changes_nothing append dest len idx keys d x name :
  get_path (VDict d) keys = Some x ->
  isinstance_dict x = false ->
  append && isinstance_list x = false ->
  last keys = Some name ->
  write_keys append dest len idx keys d = (d, [name], None).
Proof.
  revert idx d. induction keys as [| key rest IH]; intros idx d Hget Hdict Hlist
    Hlast; [done |].
  cbn [get_path] in Hget. cbn [write_keys].
  destruct (dict_get key d) as [y |] eqn:Hy; [| done].
  assert (dict_mem key d = true) as -> by (apply dict_mem_true; by eexists).
  cbn [negb andb]. rewrite Hy.
  destruct rest as [| key2 rest'].
  - inversion Hget; subst y. inversion Hlast; subst name.
    destruct x; try done; cbn [isinstance_list] in *;
      rewrite ?andb_false_r, ?Hlist; done.
  - destruct y as [| b | z | s | l | sub]; try done.
    rewrite (IH (S idx) sub Hget Hdict Hlist Hlast).
    by rewrite (dict_set_same _ _ _ Hy).
Qed.

(** In append mode, a last key that is absent from a dictionary without
    an entry named [key] is set to a list of the replacement alone. *)
Lemma absent_target_without_key_entry v len idx key d :
  idx = len - 1 ->
  dict_get key d = None ->
  dict_get "key" d = None ->
  write_keys true (inr v) len idx [key] d
  = (dict_set key (VList [v]) d, [], None).
Proof.
  intros -> Hkey Hliteral. cbn [write_keys].
  assert (dict_mem key d = false) as -> by by apply dict_mem_false.
  by rewrite Nat.eqb_refl, Hliteral.
Qed.

(** ** The conflicts of one write *)





Section fixed_database.
Variable hs_scan : Database -> string -> list nat.
Variables (db : Database) (vm : value_mapping) (append : bool).




End fixed_database.




(** C4, at the failing input.  The target is [a.b] and [a] holds text:
    the conflict at [a] is recorded, and then the loop goes on with the
    next key in the same dictionary and creates [b] beside [a]. *)
Theorem conflict_on_the_way_still_writes :
  Samples.resolve [("src", VStr "abc"); ("a", VStr "scalar")] "a.b" false
  = ([("src", VStr "abc"); ("a", VStr "scalar"); ("b", VStr "X")],
     inl (DuplicationError (DuplicationError_message "test" ["a"]))).
Proof. vm_compute. reflexivity. Qed.

(** C6, at the failing input.  The target [target] is absent, the rule
    appends, and the event has an entry under the name [key]: the
    target is bound to that entry's list and the replacement is
    appended to it, so both names show the old element and the new
    one. *)
Theorem absent_target_takes_list_under_key :
  Samples.resolve [("src", VStr "abc"); ("key", VList [VStr "old"])]
    "target" true
  = ([("src", VStr "abc"); ("key", VList [VStr "old"; VStr "X"]);
      ("target", VList [VStr "old"; VStr "X"])],
     inr tt).
Proof. vm_compute. reflexivity. Qed.

End ResolverWrites.

(* ===================================================================== *)
(** * The resolver: compiling and caching pattern databases *)
(* ===================================================================== *)

Module ResolverStore.
Import Py GenericResolver PyFacts.

(** ** Compilation *)

Lemma dict_get_NoDup {V} (d : odict string V) (k : string) (v : V) :
  NoDup (dict_keys d) -> (k, v) ∈ d -> dict_get k d = Some v.
Proof.
  unfold dict_keys. induction d as [| [k' v'] d IH]; simpl.
  - by intros _ ?%elem_of_nil.
  - intros [Hnotin Hnodup]%NoDup_cons [Heq | Hin]%elem_of_cons.
    + inversion Heq; subst. by rewrite decide_True.
    + destruct (decide (k = k')) as [-> | Hne]; [| by apply IH].
      exfalso. apply Hnotin. apply list_elem_of_fmap. by exists (k', v).
Qed.

(** The loop that fills the value mapping never fails on the keys of the
    list it reads, and adds the entries in the order of the ids. *)
Lemma fill_value_mapping_enumerate (resolve_list : odict string value)
    (patterns : list string) (start : nat) (acc : value_mapping) :
  (forall p, p ∈ patterns -> p ∈ dict_keys resolve_list) ->
  (forall i, i ∈ dict_keys acc -> i < start) ->
  fill_value_mapping resolve_list (enumerate_from start patterns) acc =
  inr (acc ++ ((fun ip : nat * string =>
                  (ip.1, default VNone (dict_get ip.2 resolve_list)))
               <$> enumerate_from start patterns)).
Proof.
  revert start acc.
  induction patterns as [| p patterns IH]; intros start acc Hkeys Hacc.
  - simpl. by rewrite app_nil_r.
  - cbn [enumerate_from fill_value_mapping].
    destruct (dict_get_is_Some p resolve_list) as [v Hv];
      [apply Hkeys; left |].
    rewrite Hv. rewrite dict_set_new.
    2: { intros Hin. apply Hacc in Hin. lia. }
    rewrite IH.
    + cbn [fmap list_fmap fst snd]. rewrite Hv. cbn [default from_option id].
      by rewrite <- app_assoc.
    + intros q Hq. apply Hkeys. by right.
    + intros i. unfold dict_keys. rewrite fmap_app.
      intros [Hin | Hin]%elem_of_app.
      * apply Hacc in Hin. lia.
      * apply list_elem_of_singleton in Hin. simpl in Hin. lia.
Qed.

Lemma enumerate_keys_values (lookup_in d : odict string value) (start : nat) :
  (forall kv, kv ∈ d -> dict_get kv.1 lookup_in = Some kv.2) ->
  (fun ip : nat * string => (ip.1, default VNone (dict_get ip.2 lookup_in)))
    <$> enumerate_from start (dict_keys d) =
  (fun ikv : nat * (string * value) => (ikv.1, ikv.2.2))
    <$> enumerate_from start d.
Proof.
  revert start. induction d as [| [k v] d IH]; intros start Hd; [done |].
  pose proof (Hd (k, v) ltac:(left)) as Hkv. simpl in Hkv.
  unfold dict_keys in *. simpl. rewrite Hkv. simpl. f_equal.
  apply IH. intros kv Hin. apply Hd. by right.
Qed.

Lemma enumerate_from_ids {A} (start : nat) (l : list A) :
  (enumerate_from start l).*1 = seq start (length l).
Proof.
  revert start. induction l as [| x l IH]; intros start; [done |].
  simpl. by rewrite IH.
Qed.

Lemma enumerate_from_items {A} (start : nat) (l : list A) :
  (enumerate_from start l).*2 = l.
Proof.
  revert start. induction l as [| x l IH]; intros start; [done |].
  simpl. by rewrite IH.
Qed.

Lemma enumerate_from_length {A} (start : nat) (l : list A) :
  length (enumerate_from start l) = length l.
Proof.
  revert start. induction l as [| x l IH]; intros start; [done |].
  simpl. by rewrite IH.
Qed.

(** The value mapping of a list with distinct patterns: entry [i] is
    the replacement of the pattern at position [i]. *)
Lemma fill_value_mapping_ordinal (resolve_list : odict string value) :
  NoDup (dict_keys resolve_list) ->
  fill_value_mapping resolve_list (enumerate (dict_keys resolve_list)) [] =
  inr ((fun ikv : nat * (string * value) => (ikv.1, ikv.2.2))
         <$> enumerate resolve_list).
Proof.
  intros Hnodup. unfold enumerate.
  rewrite fill_value_mapping_enumerate; [| done |].
  - rewrite app_nil_l. f_equal. apply enumerate_keys_values.
    intros [k v] Hin. by apply dict_get_NoDup.
  - by intros i ?%elem_of_nil.
Qed.

(** What [_create_database] does, in one equation. *)
Lemma create_database_eq (hs_compiles : Database -> bool) (self : processor)
    (resolve_list : odict string value) (st : state) :
  NoDup (dict_keys resolve_list) ->
  _create_database hs_compiles self resolve_list st =
  match resolve_list with
  | [] =>
      (st, inl (GenericResolverError
                  (GenericResolverError_message (_name self)
                     "No patter to compile for hyperscan database!")))
  | _ =>
      let database :=
        {| expressions := dict_keys resolve_list;
           ids := seq 0 (length resolve_list);
           elements := length resolve_list;
           flags := replicate (length resolve_list) 9%Z |} in
      (add_log (Compiled (length resolve_list)) st,
       if hs_compiles database
       then inr (database,
                 (fun ikv : nat * (string * value) => (ikv.1, ikv.2.2))
                   <$> enumerate resolve_list)
       else inl HyperscanError)
  end.
Proof.
  intros Hnodup. unfold _create_database, mbind, Store_bind, lift.
  rewrite (fill_value_mapping_ordinal _ Hnodup).
  destruct resolve_list as [| kv rl]; [done |].
  set (d := kv :: rl) in *.
  assert (db_patterns_of d ≠ []) as Hne by done.
  assert (length (db_patterns_of d) = length d) as Hlen.
  { unfold db_patterns_of, enumerate, dict_keys.
    by rewrite length_fmap, enumerate_from_length, length_fmap. }
  assert ((fun t : string * nat * Z => t.1.1) <$> db_patterns_of d
          = dict_keys d) as Hexpr.
  { unfold db_patterns_of, enumerate. rewrite <- list_fmap_compose.
    apply (enumerate_from_items 0 (dict_keys d)). }
  assert ((fun t : string * nat * Z => t.1.2) <$> db_patterns_of d
          = seq 0 (length d)) as Hids.
  { unfold db_patterns_of, enumerate. rewrite <- list_fmap_compose.
    rewrite <- (length_fmap fst d). apply (enumerate_from_ids 0 (d.*1)). }
  assert ((fun t : string * nat * Z => t.2) <$> db_patterns_of d
          = replicate (length d) 9%Z) as Hflags.
  { rewrite <- Hlen. unfold db_patterns_of.
    induction (enumerate (dict_keys d)) as [| ip l IH]; [done |].
    rewrite !fmap_cons. cbn [length replicate]. by f_equal. }
  destruct (db_patterns_of d) as [| t pats] eqn:Hpats; [done |].
  cbn zeta. unfold log, modify. cbn [fst snd].
  rewrite Hexpr, Hids, Hflags, Hlen.
  by destruct (hs_compiles _).
Qed.

(** C9, in the form the code satisfies.  For a resolve list with
    distinct patterns (a dictionary): compiling fails with the error of
    this module exactly when the list is empty.  For a non-empty list
    the patterns are handed to the library in the order of the list,
    pattern [i] with the id [i] and the flags for caseless single
    matches; when the library takes them, compiling returns that
    database with a value mapping that maps [i] to the replacement of
    pattern [i], in that same order; when the library refuses them,
    compiling fails with the error of the library.  Compiling returns
    in no other case. *)
Theorem compile_fails_with_own_error_iff_empty
    (hs_compiles : Database -> bool) (self : processor)
    (resolve_list : odict string value) (st : state) :
  NoDup (dict_keys resolve_list) ->
  let database :=
    {| expressions := dict_keys resolve_list;
       ids := seq 0 (length resolve_list);
       elements := length resolve_list;
       flags := replicate (length resolve_list)
                  (Z.lor HS_FLAG_SINGLEMATCH HS_FLAG_CASELESS) |} in
  let mapping :=
    (fun ikv : nat * (string * value) => (ikv.1, ikv.2.2))
      <$> enumerate resolve_list in
  let outcome := (_create_database hs_compiles self resolve_list st).2 in
  (resolve_list = [] ->
   outcome =
     inl (GenericResolverError
            (GenericResolverError_message (_name self)
               "No patter to compile for hyperscan database!")))
  /\ (forall text, outcome = inl (GenericResolverError text) ->
      resolve_list = [])
  /\ (resolve_list ≠ [] -> hs_compiles database = true ->
      outcome = inr (database, mapping))
  /\ (resolve_list ≠ [] -> hs_compiles database = false ->
      outcome = inl HyperscanError)
  /\ (forall entry, outcome = inr entry ->
      resolve_list ≠ [] /\ hs_compiles database = true /\
      entry = (database, mapping)).
Proof.
  intros Hnodup.
  change (Z.lor HS_FLAG_SINGLEMATCH HS_FLAG_CASELESS) with 9%Z.
  intros database mapping outcome. subst outcome.
  rewrite (create_database_eq hs_compiles self resolve_list st Hnodup).
  destruct resolve_list as [| kv rl].
  - split; [done |]. split; [done |]. split; [done |]. split; [done |].
    by intros entry [=].
  - cbn zeta. fold database mapping. cbn [snd].
    destruct (hs_compiles database) eqn:Hc.
    + split; [done |]. split; [by intros text [=] |]. split; [done |].
      split; [done |]. by intros entry [= <-].
    + split; [done |]. split; [by intros text [=] |]. split; [done |].
      split; [done |]. by intros entry [=].
Qed.

(** [compile_fails_with_own_error_iff_empty] on a list of two patterns
    that the library takes. *)
Lemma compile_fails_with_own_error_iff_empty_witness :
  (_create_database Samples.literal_compiles Samples.resolver
     [("abc", VStr "X"); ("ab", VStr "Y")] Samples.fresh).2 =
  inr ({| expressions := ["abc"; "ab"];
          ids := [0; 1];
          elements := 2;
          flags := [9%Z; 9%Z] |},
       [(0, VStr "X"); (1, VStr "Y")]).
Proof.
  apply (compile_fails_with_own_error_iff_empty Samples.literal_compiles
           Samples.resolver [("abc", VStr "X"); ("ab", VStr "Y")]
           Samples.fresh).
  - unfold dict_keys. simpl. compute_done.
  - discriminate.
  - vm_compute. reflexivity.
Defined.

(** C9, counterexample.  The resolve list has one entry, whose pattern
    is an opening parenthesis alone: the list is not empty, the call of
    [Database.compile] is made, and compiling fails with the error of
    the library. *)
Lemma nonempty_list_fails_to_compile :
  _create_database Samples.literal_compiles Samples.resolver
    [("(", VStr "X")] Samples.fresh =
  (add_log (Compiled 1) Samples.fresh, inl HyperscanError).
Proof. vm_compute. reflexivity. Qed.

(** ** The cache *)

Section store.
Variable loadb : string -> option Database.
Variable dumpb : Database -> string.
Variable hs_compiles : Database -> bool.
Variable self : processor.

Local Abbreviation acquire := (_get_hyperscan_database loadb dumpb hs_compiles self).

(** The loop over the keys of the resolve list always ends with a value
    mapping. *)
Lemma fill_value_mapping_total (resolve_list : odict string value) :
  exists vm,
    fill_value_mapping resolve_list (enumerate (dict_keys resolve_list)) []
    = inr vm.
Proof.
  eexists. unfold enumerate. apply fill_value_mapping_enumerate; [done |].
  by intros i ?%elem_of_nil.
Qed.

(** A call for an identity that is in the cache returns the cached pair
    and leaves the state, files and log included, as it was. *)
Lemma acquire_hit rule st entry :
  _hyperscan_databases st !! file_name rule = Some entry ->
  acquire rule st = (st, inr entry).
Proof.
  intros Hhit. unfold _get_hyperscan_database, mbind, Store_bind, gets.
  by rewrite Hhit.
Qed.

(** Compiling touches neither the cache nor the files; it adds at most
    its own entry to the log. *)
Lemma create_database_state resolve_list st :
  (_create_database hs_compiles self resolve_list st).1 = st \/
  exists n, (_create_database hs_compiles self resolve_list st).1 = add_log (Compiled n) st.
Proof.
  unfold _create_database, mbind, Store_bind, lift.
  destruct (fill_value_mapping _ _ _) as [e | vm]; [by left |].
  destruct (db_patterns_of resolve_list) as [| t pats]; [by left |].
  right. cbn zeta. unfold log, modify. cbn [fst snd].
  destruct (hs_compiles _); by eexists.
Qed.

(** A call for an identity that is not in the cache, in one equation:
    the file is opened; if it is there it is loaded, and the pair goes
    into the cache; if it is missing the database is compiled, saved
    when the rule asks for it, and the pair goes into the cache. *)
Lemma acquire_miss rule st :
  _hyperscan_databases st !! file_name rule = None ->
  acquire rule st =
  let path := db_file self (file_name rule) in
  let st0 := add_log (Opened_for_reading path) st in
  match files st !! path with
  | Some data =>
      match fill_value_mapping (resolve_list rule)
              (enumerate (dict_keys (resolve_list rule))) [], loadb data with
      | inr vm, Some db =>
          (set_cache (file_name rule) (db, vm) st0, inr (db, vm))
      | inr vm, None => (st0, inl HyperscanError)
      | inl e, _ => (st0, inl e)
      end
  | None =>
      match _create_database hs_compiles self (resolve_list rule) st0 with
      | (stc, inr entry) =>
          (set_cache (file_name rule) entry
             (if store_db_persistent rule
              then set_file path (dumpb entry.1) (add_log (Written path) stc)
              else stc),
           inr entry)
      | (stc, inl e) => (stc, inl e)
      end
  end.
Proof.
  intros Hmiss.
  destruct (fill_value_mapping_total (resolve_list rule)) as [vm Hvm].
  unfold _get_hyperscan_database, mbind, Store_bind, gets. rewrite Hmiss.
  unfold try_except_FileNotFoundError, _load_database, mbind, Store_bind,
    log, modify, gets, lift.
  cbn [files add_log]. rewrite Hvm.
  destruct (files st !! db_file self (file_name rule)) as [data |].
  - by destruct (loadb data).
  - unfold raise.
    destruct (_create_database hs_compiles self (resolve_list rule) _) as [stc [e | entry]];
      [done |].
    by destruct (store_db_persistent rule).
Qed.

(** A call never removes or changes an entry of the cache. *)
Lemma acquire_keeps rule st id e :
  _hyperscan_databases st !! id = Some e ->
  _hyperscan_databases (acquire rule st).1 !! id = Some e.
Proof.
  intros Hid.
  destruct (_hyperscan_databases st !! file_name rule) as [entry |] eqn:Hc.
  { by rewrite (acquire_hit _ _ _ Hc). }
  assert (file_name rule ≠ id) as Hne.
  { intros Heq. rewrite Heq in Hc. congruence. }
  rewrite (acquire_miss _ _ Hc). cbn zeta.
  destruct (files st !! db_file self (file_name rule)) as [data |].
  - destruct (fill_value_mapping _ _ _) as [err | vm]; [done |].
    destruct (loadb data); [| done].
    cbn [fst set_cache _hyperscan_databases]. by rewrite lookup_insert_ne.
  - set (st0 := add_log _ st).
    assert (_hyperscan_databases
              (_create_database hs_compiles self (resolve_list rule) st0).1 !! id = Some e)
      as Hcreated.
    { by destruct (create_database_state (resolve_list rule) st0)
        as [-> | [n ->]]. }
    destruct (_create_database hs_compiles self (resolve_list rule) st0)
      as [stc [err | entry]]; [done |].
    cbn [fst set_cache _hyperscan_databases]. rewrite lookup_insert_ne by done.
    by destruct (store_db_persistent rule).
Qed.

Lemma acquire_all_keeps rules st id e :
  _hyperscan_databases st !! id = Some e ->
  _hyperscan_databases (acquire_all loadb dumpb hs_compiles self rules st) !! id = Some e.
Proof.
  revert st. induction rules as [| rule rules IH]; intros st Hid; [done |].
  cbn [acquire_all foldl]. apply IH. by apply acquire_keeps.
Qed.

(** A call that returns leaves its result in the cache. *)
Lemma acquire_populates rule st st1 entry :
  acquire rule st = (st1, inr entry) ->
  _hyperscan_databases st1 !! file_name rule = Some entry.
Proof.
  destruct (_hyperscan_databases st !! file_name rule) as [cached |] eqn:Hc.
  { rewrite (acquire_hit _ _ _ Hc). by intros [= <- <-]. }
  rewrite (acquire_miss _ _ Hc). cbn zeta.
  destruct (files st !! db_file self (file_name rule)) as [data |].
  - destruct (fill_value_mapping _ _ _) as [err | vm]; [done |].
    destruct (loadb data); [| done].
    intros [= <- <-]. cbn [set_cache _hyperscan_databases].
    apply lookup_insert_eq.
  - destruct (_create_database hs_compiles self (resolve_list rule) _)
      as [stc [err | created]]; [done |].
    intros [= <- <-]. cbn [set_cache _hyperscan_databases].
    apply lookup_insert_eq.
Qed.

(** C8.  A call of [_get_hyperscan_database] that returns has the pair
    it returns in the cache.  If the identity was not cached before,
    the call opened the file of that identity and either loaded it, and
    then neither compiled nor wrote, or, the file missing, compiled the
    resolve list and wrote the file exactly when the rule asks for it.
    After that, whatever further calls are made, a call for the same
    identity returns that same pair and changes nothing: not the cache,
    not the files, not the log of I/O.  No call removes or replaces an
    entry of the cache. *)
Theorem cache_populated_once rule st st1 entry :
  acquire rule st = (st1, inr entry) ->
  _hyperscan_databases st1 !! file_name rule = Some entry
  /\ (_hyperscan_databases st !! file_name rule = None ->
      let path := db_file self (file_name rule) in
      let st0 := add_log (Opened_for_reading path) st in
      match files st !! path with
      | Some data =>
          loadb data = Some entry.1 /\
          st1 = set_cache (file_name rule) entry st0
      | None =>
          let stc := (_create_database hs_compiles self (resolve_list rule) st0).1 in
          (_create_database hs_compiles self (resolve_list rule) st0).2 = inr entry /\
          st1 = set_cache (file_name rule) entry
                  (if store_db_persistent rule
                   then set_file path (dumpb entry.1)
                          (add_log (Written path) stc)
                   else stc)
      end)
  /\ (forall rules rule',
      file_name rule' = file_name rule ->
      let st2 := acquire_all loadb dumpb hs_compiles self rules st1 in
      acquire rule' st2 = (st2, inr entry))
  /\ (forall rules id e,
      _hyperscan_databases st !! id = Some e ->
      _hyperscan_databases (acquire_all loadb dumpb hs_compiles self rules st) !! id
        = Some e).
Proof.
  intros Hcall. split; [by eapply acquire_populates |]. split; [| split].
  - intros Hmiss. rewrite (acquire_miss _ _ Hmiss) in Hcall. cbn zeta in *.
    destruct (files st !! db_file self (file_name rule)) as [data |].
    + destruct (fill_value_mapping _ _ _) as [err | vm]; [done |].
      destruct (loadb data); [| done]. by inversion Hcall.
    + destruct (_create_database hs_compiles self (resolve_list rule) _)
        as [stc [err | created]]; [done |].
      by inversion Hcall.
  - intros rules rule' Hsame st2. apply acquire_hit. rewrite Hsame.
    apply acquire_all_keeps. by eapply acquire_populates.
  - intros rules id e. apply acquire_all_keeps.
Qed.
End store.

(** [cache_populated_once] in a fresh processor without files: the
    first call compiles; a later call for the same file name, after a
    call for another one, returns the cached pair. *)
Lemma cache_populated_once_witness :
  let acquire :=
    _get_hyperscan_database Samples.sample_loadb Samples.sample_dumpb Samples.literal_compiles
      Samples.resolver in
  let first := acquire (Samples.rule_to "target" false true) Samples.fresh in
  let st2 :=
    acquire_all Samples.sample_loadb Samples.sample_dumpb Samples.literal_compiles Samples.resolver
      [Samples.rule_two_targets] first.1 in
  io_log first.1 =
    [Opened_for_reading "/tmp/dbs/rule_file.db"; Compiled 2;
     Written "/tmp/dbs/rule_file.db"] /\
  exists entry,
    first.2 = inr entry /\
    acquire (Samples.rule_to "other" true false) st2 = (st2, inr entry).
Proof.
  intros acquire first st2. split; [vm_compute; reflexivity |].
  destruct first as [st1 [e | entry]] eqn:Hfirst; [by vm_compute in Hfirst |].
  exists entry. split; [done |].
  apply (cache_populated_once Samples.sample_loadb Samples.sample_dumpb Samples.literal_compiles
           Samples.resolver (Samples.rule_to "target" false true)
           Samples.fresh st1 entry Hfirst).
  reflexivity.
Defined.

End ResolverStore.

(* ===================================================================== *)
(** * The template replacer: recombining composite keys *)
(* ===================================================================== *)

Module TemplateKeys.
Import Py Accessor TemplateReplacer Notions PyFacts.

Section not_last.
(** [nfields] fields, of which the one at [A] may contain the
    delimiter and is not the last one. *)
Variables (nfields A : nat).
Hypothesis not_last : A + 1 < nfields.

Lemma slice_offset_neg :
  slice_offset nfields A = (- Z.of_nat (nfields - A - 1))%Z.
Proof. unfold slice_offset. lia. Qed.

Lemma left_of_take (tokens : list string) : left_of A tokens = take A tokens.
Proof. apply slice_to_nat. Qed.

Lemma middle_of_take (tokens : list string) :
  middle_of nfields A tokens =
  take (length tokens - A - (nfields - A - 1)) (drop A tokens).
Proof.
  unfold middle_of, middle_and_right_of.
  rewrite slice_offset_neg, slice_from_nat, slice_to_neg by lia.
  by rewrite length_drop.
Qed.

Lemma right_of_drop (tokens : list string) :
  right_of nfields A tokens =
  drop (length tokens - A - (nfields - A - 1)) (drop A tokens).
Proof.
  unfold right_of, middle_and_right_of.
  rewrite slice_offset_neg, slice_from_nat, slice_from_neg by lia.
  by rewrite length_drop.
Qed.


(** A key with exactly as many tokens as there are fields recombines to
    its tokens. *)
Lemma recombine_exact (tokens : list string) :
  length tokens = nfields -> recombine nfields A tokens = tokens.
Proof.
  intros Hlen. unfold recombine.
  rewrite left_of_take, middle_of_take, right_of_drop.
  replace (length tokens - A - (nfields - A - 1)) with 1 by lia.
  destruct (drop A tokens) as [| x rest] eqn:Hdrop.
  { apply (f_equal length) in Hdrop. rewrite length_drop in Hdrop.
    simpl in Hdrop. lia. }
  cbn [take drop py_join app]. rewrite take_0, drop_0.
  rewrite <- Hdrop. apply take_drop.
Qed.
End not_last.

(** Inserting along keys, one per level of a well-formed index, ends
    well: the index stays well-formed, the path of the keys leads to
    the value, and the other paths of that length lead where they
    led. *)
Lemma insert_keys_spec (nfields : nat) (value : Py.value)
    (keys : list string) :
  forall (idx : nat) (v : Py.value),
  keys ≠ [] ->
  idx + length keys = nfields ->
  wf_index (length keys) v ->
  exists v',
    insert_keys nfields idx keys value v = inr v' /\
    wf_index (length keys) v' /\
    truthy v' = true /\
    get_path v' keys = Some value /\
    (forall keys', length keys' = length keys -> keys' ≠ keys ->
                   get_path v' keys' = get_path v keys').
Proof.
  induction keys as [| key rest IH]; intros idx v Hne Hlen Hwf; [done |].
  simpl in Hlen. destruct Hwf as (d & -> & Hd).
  cbn [insert_keys].
  destruct rest as [| key2 rest'].
  - (* the last level *)
    assert ((idx <? nfields - 1) = false) as -> by (apply Nat.ltb_ge; simpl in *; lia).
    unfold mbind, result_bind. cbn [py_setitem builtin insert_keys mret result_ret].
    eexists. split; [done |].
    split; [by exists (dict_set key value d) |].
    split. { cbn [truthy]. pose proof (dict_set_not_nil key value d).
             by destruct (dict_set key value d). }
    split. { cbn [get_path]. by rewrite dict_get_set_eq. }
    intros [| key' [| ? ?]] Hlen' Hne'; try done.
    cbn [get_path]. rewrite dict_get_set_ne; [done |]. congruence.
  - (* a level above the last *)
    set (rest := key2 :: rest') in *.
    assert ((idx <? nfields - 1) = true) as ->.
    { apply Nat.ltb_lt. simpl in *. lia. }
    specialize (Hd ltac:(done)).
    assert (wf_index (length rest) (VDict [])) as Hempty.
    { exists []. split; [done |]. by intros _. }
    unfold mbind, result_bind. cbn [py_get builtin].
    destruct (dict_get key d) as [x |] eqn:Hx.
    + (* the entry is there, and it is a non-empty index *)
      apply dict_get_elem_of in Hx as Hin.
      rewrite Forall_forall in Hd. destruct (Hd _ Hin) as [Htruthy Hwfx].
      cbn [snd] in *. cbn [truthy_opt]. rewrite Htruthy.
      cbn [negb mret result_ret py_getitem builtin]. rewrite Hx. cbn [builtin].
      destruct (IH (S idx) x) as (x' & -> & Hwf' & Ht' & Hget' & Hother');
        [done | simpl in *; lia | done |].
      cbn [py_setitem builtin]. eexists. split; [done |].
      split.
      { exists (dict_set key x' d). split; [done |]. intros _.
        apply dict_set_Forall; [done |]. by apply Forall_forall. }
      split. { cbn [truthy]. pose proof (dict_set_not_nil key x' d).
               by destruct (dict_set key x' d). }
      split. { cbn [get_path]. by rewrite dict_get_set_eq. }
      intros [| key' rest''] Hlen' Hne'; [done |].
      cbn [get_path]. destruct (decide (key' = key)) as [-> | Hk].
      * rewrite dict_get_set_eq, Hx. apply Hother'; [by inversion Hlen' |].
        congruence.
      * rewrite dict_get_set_ne by done. done.
    + (* the entry is missing: a new level is made *)
      cbn [truthy_opt negb py_setitem builtin py_getitem].
      rewrite dict_get_set_eq. cbn [builtin].
      destruct (IH (S idx) (VDict [])) as (x' & -> & Hwf' & Ht' & Hget' & Hother');
        [done | simpl in *; lia | done |].
      cbn [py_setitem builtin]. rewrite dict_set_set.
      eexists. split; [done |].
      split.
      { exists (dict_set key x' d). split; [done |]. intros _.
        by apply dict_set_Forall. }
      split. { cbn [truthy]. pose proof (dict_set_not_nil key x' d).
               by destruct (dict_set key x' d). }
      split. { cbn [get_path]. by rewrite dict_get_set_eq. }
      intros [| key' rest''] Hlen' Hne'; [done |].
      cbn [get_path]. destruct (decide (key' = key)) as [-> | Hk].
      * rewrite dict_get_set_eq, Hx.
        rewrite Hother'; [| by inversion Hlen' | congruence].
        destruct rest''; [done | done].
      * rewrite dict_get_set_ne by done. done.
Qed.

(** ** One entry of the template *)

Section one_configuration.
Variables (name template_path : string) (fields : list string).
Variables (delimiter : string) (A : nat).
Hypothesis some_field : fields ≠ [].

Local Abbreviation F := (length fields).
Local Abbreviation add :=
  (add_entry name template_path fields delimiter A).
Local Abbreviation add_all :=
  (add_entries name template_path fields delimiter A).
Local Abbreviation keys_of := (entry_keys fields delimiter A).

Lemma wf_index_empty : wf_index F (VDict []).
Proof.
  destruct fields as [| f fs]; [done |]. exists []. split; [done |].
  by intros _.
Qed.

(** An entry whose key recombines to as many keys as there are fields
    goes into a well-formed index without failure. *)
Lemma add_entry_ok key value mapping keys :
  keys_of key = Some keys ->
  length keys = F ->
  wf_index F mapping ->
  exists mapping',
    add key value mapping = inr mapping' /\
    wf_index F mapping' /\
    get_path mapping' keys = Some value /\
    (forall keys', length keys' = F -> keys' ≠ keys ->
                   get_path mapping' keys' = get_path mapping keys').
Proof.
  unfold entry_keys, add_entry. intros Hkeys Hlen Hwf.
  destruct (py_split delimiter key) as [e | split_key]; [done |].
  inversion Hkeys as [Hrec]. unfold mbind, result_bind. cbn [builtin].
  rewrite Hrec. rewrite bool_decide_eq_false_2 by (intros Hne; by apply Hne).
  destruct (insert_keys_spec F value keys 0 mapping)
    as (mapping' & Hins & Hwf' & _ & Hget & Hother).
  - intros ->. simpl in Hlen. destruct fields; done.
  - done.
  - by rewrite Hlen.
  - exists mapping'. rewrite Hins. cbn [except_ValueError].
    split; [done |]. split; [by rewrite <- Hlen |]. split; [done |].
    intros keys' Hlen'. apply Hother. congruence.
Qed.

(** An entry that went in had a key that recombines to as many keys as
    there are fields. *)
Lemma add_entry_keys key value mapping mapping' :
  add key value mapping = inr mapping' ->
  exists keys, keys_of key = Some keys /\ length keys = F.
Proof.
  unfold entry_keys, add_entry.
  destruct (py_split delimiter key) as [e | split_key]; [done |].
  unfold mbind, result_bind. cbn [builtin].
  destruct (bool_decide_reflect
              (length (recombine F A split_key) ≠ F)) as [Hne | Heq];
    [done |].
  intros _. eexists. split; [done |].
  destruct (decide (length (recombine F A split_key) = F)); [done |].
  by exfalso; apply Heq.
Qed.

Lemma add_entries_app items1 items2 mapping :
  add_all (items1 ++ items2) mapping =
  add_all items1 mapping ≫= add_all items2.
Proof.
  revert mapping. induction items1 as [| [key value] items1 IH];
    intros mapping; [done |].
  cbn [app add_entries]. unfold mbind, result_bind in *.
  destruct (add key value mapping); [done | apply IH].
Qed.

(** The loop over the entries keeps the index well-formed and leaves
    alone the paths no entry recombines to. *)
Lemma add_entries_spec items mapping mapping' :
  wf_index F mapping ->
  add_all items mapping = inr mapping' ->
  wf_index F mapping' /\
  (forall keys,
      length keys = F ->
      (forall kv, kv ∈ items -> keys_of kv.1 ≠ Some keys) ->
      get_path mapping' keys = get_path mapping keys).
Proof.
  revert mapping. induction items as [| [key value] items IH];
    intros mapping Hwf.
  - intros [= <-]. by split.
  - cbn [add_entries]. unfold mbind, result_bind.
    destruct (add key value mapping) as [e | mapping1] eqn:Hadd; [done |].
    intros Hrest.
    destruct (add_entry_keys _ _ _ _ Hadd) as (keys1 & Hkeys1 & Hlen1).
    destruct (add_entry_ok key value mapping keys1 Hkeys1 Hlen1 Hwf)
      as (mapping1' & Hadd' & Hwf1 & _ & Hother).
    rewrite Hadd in Hadd'. inversion Hadd'; subst mapping1'.
    destruct (IH mapping1 Hwf1 Hrest) as [Hwf' Hkeep].
    split; [done |]. intros keys Hlen Hnone.
    rewrite Hkeep; [| done | intros kv Hin; apply Hnone; by right].
    apply Hother; [done |]. intros ->.
    by apply (Hnone (key, value)); [left |].
Qed.

(** The entry that comes last among those that recombine to given keys
    is the one a path along these keys leads to. *)
Lemma add_entries_last before key value after keys mapping mapping' :
  wf_index F mapping ->
  add_all (before ++ (key, value) :: after) mapping = inr mapping' ->
  keys_of key = Some keys ->
  (forall kv, kv ∈ after -> keys_of kv.1 ≠ Some keys) ->
  wf_index F mapping' /\ length keys = F /\
  get_path mapping' keys = Some value.
Proof.
  intros Hwf Hall Hkeys Hafter.
  rewrite add_entries_app in Hall. unfold mbind, result_bind in Hall.
  destruct (add_all before mapping) as [e | mapping1] eqn:Hbefore; [done |].
  destruct (add_entries_spec _ _ _ Hwf Hbefore) as [Hwf1 _].
  cbn [add_entries] in Hall. unfold mbind, result_bind in Hall.
  destruct (add key value mapping1) as [e | mapping2] eqn:Hadd; [done |].
  destruct (add_entry_keys _ _ _ _ Hadd) as (keys' & Hkeys' & Hlen).
  rewrite Hkeys in Hkeys'. inversion Hkeys'; subst keys'.
  destruct (add_entry_ok key value mapping1 keys Hkeys Hlen Hwf1)
    as (mapping2' & Hadd' & Hwf2 & Hget & _).
  rewrite Hadd in Hadd'. inversion Hadd'; subst mapping2'.
  destruct (add_entries_spec _ _ _ Hwf2 Hall) as [Hwf' Hkeep].
  split; [done |]. split; [done |]. by rewrite Hkeep.
Qed.
(** When every key of the template splits into as many tokens as there
    are fields, and the delimiter is allowed in a field that is not the
    last one, the loop over the entries ends well. *)
Lemma add_entries_exact_keys items mapping :
  A + 1 < F ->
  (forall kv, kv ∈ items ->
     exists tokens, py_split delimiter kv.1 = inr tokens /\ length tokens = F) ->
  wf_index F mapping ->
  exists mapping', add_all items mapping = inr mapping' /\ wf_index F mapping'.
Proof.
  intros Hnot_last. revert mapping.
  induction items as [| [key value] items IH]; intros mapping Hexact Hwf.
  - by exists mapping.
  - destruct (Hexact (key, value)) as (tokens & Hsplit & Hlen); [left |].
    destruct (add_entry_ok key value mapping tokens)
      as (mapping1 & Hadd & Hwf1 & _); [| done | done |].
    { unfold entry_keys. cbn [fst] in Hsplit. rewrite Hsplit.
      by rewrite (recombine_exact F A Hnot_last tokens Hlen). }
    cbn [add_entries]. rewrite Hadd. unfold mbind, result_bind.
    apply IH; [| done]. intros kv Hin. apply Hexact. by right.
Qed.
End one_configuration.

(** C2, in the form the code satisfies.  With [F] fields, a delimiter that is not empty,
    and the delimiter allowed in a field that is not the last one
    ([A + 1 < F]): the tokens of a key are cut into [left], the first
    [A]; [right], the last [F - A - 1], or all that follow [left] when
    there are fewer; and [middle], those between.  They are put
    together again as [left + [join(middle, "-")] + right].  When that
    list has not exactly [F] elements the entry fails with the error of
    this module, whose text gives the path of the template file and the
    list of the fields; otherwise the entry goes into a well-formed
    index without failure.  A key of exactly [F] tokens recombines to
    its tokens, and so never fails. *)
Theorem recombination_when_not_last (name template_path : string)
    (fields : list string) (delimiter : string) (A : nat) (key : string)
    (value mapping : Py.value) (tokens : list string) :
  A + 1 < length fields ->
  py_split delimiter key = inr tokens ->
  let F := length fields in
  let left := take A tokens in
  let middle := take (length tokens - A - (F - A - 1)) (drop A tokens) in
  let right := drop (length tokens - A - (F - A - 1)) (drop A tokens) in
  tokens = left ++ middle ++ right
  /\ length right = (F - A - 1) `min` (length tokens - A)
  /\ recombine F A tokens = left ++ [py_join "-" middle] ++ right
  /\ (length (recombine F A tokens) ≠ F ->
      add_entry name template_path fields delimiter A key value mapping =
        inl (TemplateReplacerError
               (not_enough_delimiters name template_path fields)))
  /\ (length (recombine F A tokens) = F ->
      wf_index F mapping ->
      exists mapping',
        add_entry name template_path fields delimiter A key value mapping
          = inr mapping' /\
        wf_index F mapping' /\
        get_path mapping' (recombine F A tokens) = Some value)
  /\ (length tokens = F ->
      recombine F A tokens = tokens /\ length (recombine F A tokens) = F).
Proof.
  intros Hnot_last Hsplit F left middle right.
  assert (fields ≠ []) as Hfields by (intros ->; simpl in *; lia).
  split; [| split; [| split; [| split; [| split]]]].
  - subst left middle right. by rewrite !take_drop.
  - subst right. rewrite !length_drop. lia.
  - unfold recombine.
    by rewrite (left_of_take A), (middle_of_take F A Hnot_last),
      (right_of_drop F A Hnot_last).
  - intros Hlen. unfold add_entry. rewrite Hsplit.
    unfold mbind, result_bind. cbn [builtin].
    by rewrite bool_decide_eq_true_2.
  - intros Hlen Hwf.
    destruct (add_entry_ok name template_path fields delimiter A Hfields
                key value mapping (recombine F A tokens))
      as (mapping' & Hadd & Hwf' & Hget & _); [| done | done |].
    + unfold entry_keys. by rewrite Hsplit.
    + by exists mapping'.
  - intros Hlen.
    rewrite (recombine_exact F A Hnot_last tokens Hlen). by split.
Qed.

(** [recombination_when_not_last] on three fields with the delimiter
    allowed in the first, and a key of five tokens. *)
Lemma recombination_when_not_last_witness :
  recombine 3 0 ["net"; "10"; "0"; "eth0"; "up"] = ["net-10-0"; "eth0"; "up"]
  /\ exists mapping',
       add_entry "tr" "/etc/template.yml" ["a"; "b"; "c"] "-" 0
         "net-10-0-eth0-up" (VStr "Z") (VDict []) = inr mapping' /\
       wf_index 3 mapping' /\
       get_path mapping' (recombine 3 0 ["net"; "10"; "0"; "eth0"; "up"])
         = Some (VStr "Z").
Proof.
  destruct (recombination_when_not_last "tr" "/etc/template.yml"
              ["a"; "b"; "c"] "-" 0 "net-10-0-eth0-up" (VStr "Z") (VDict [])
              ["net"; "10"; "0"; "eth0"; "up"])
    as (_ & _ & Hrec & _ & Hadd & _).
  - simpl. lia.
  - vm_compute. reflexivity.
  - split; [exact Hrec |]. apply Hadd.
    + vm_compute. reflexivity.
    + exists []. split; [reflexivity |]. intros _. constructor.
Defined.

(** C2, counterexample.  With three fields the key [zzz] recombines to
    two keys, and construction fails; the text of the error has the
    path of the template file and the list of the fields in it, not the
    key and not the number of fields. *)
Lemma error_names_file_and_fields_only :
  exists text,
    __init__ "tr" "/etc/template.yml" Samples.three_fields [("zzz", VStr "Z")]
      = inl (TemplateReplacerError text) /\
    text = not_enough_delimiters "tr" "/etc/template.yml" ["a"; "b"; "c"] /\
    is_substring "/etc/template.yml" text = true /\
    is_substring "['a', 'b', 'c']" text = true /\
    is_substring "zzz" text = false /\
    is_substring "3" text = false.
Proof. eexists. repeat split; vm_compute; reflexivity. Qed.

(** When the delimiter is allowed in the last field, the bound of the
    two slices of lines 73 and 74 is [-0]: [middle] is empty and [right]
    is all of [middle_and_right], so a key of exactly two tokens
    recombines to three keys and is refused. *)
Example last_field_allowed_refuses_exact_key :
  recombine 2 1 ["foo"; "bar"] = ["foo"; ""; "bar"] /\
  __init__ "tr" "/etc/template.yml" (Samples.two_fields "b")
    [("foo-bar", VStr "Z")]
  = inl (TemplateReplacerError
           (not_enough_delimiters "tr" "/etc/template.yml" ["a"; "b"])).
Proof. split; vm_compute; reflexivity. Qed.

End TemplateKeys.

(* ===================================================================== *)
(** * The template replacer: the built index and the lookup *)
(* ===================================================================== *)

Module TemplateLookup.
Import Py Accessor TemplateReplacer Notions PyFacts TemplateKeys.

(** In a well-formed index, the loop over the configured fields ends
    where the path along their values leads. *)
Lemma lookup_fields_get_path (event : dict) (fields keys : list string) :
  fields_read_as event fields keys ->
  forall index,
  keys ≠ [] ->
  wf_index (length keys) index ->
  lookup_fields event fields index = inr (not_None (get_path index keys)).
Proof.
  induction 1 as [| field key fields keys (x & Hx & Hsome & Hstr) Hrest IH];
    intros index Hne Hwf; [done |].
  destruct Hwf as (d & -> & Hd).
  cbn [lookup_fields get_path]. rewrite Hx.
  assert (is_None (Some x) = false) as -> by by destruct x.
  change (default VNone (Some x)) with x. rewrite Hstr.
  unfold mbind, result_bind. cbn [py_get builtin].
  destruct (dict_get key d) as [y |] eqn:Hy; [| done].
  assert (y = VNone \/ y ≠ VNone) as [-> | Hy_some]
    by (destruct y; auto).
  { cbn [is_None]. by destruct keys. }
  assert (is_None (Some y) = false) as -> by by destruct y.
  change (default VNone (Some y)) with y.
  destruct keys as [| key2 keys'].
  - inversion Hrest. subst. cbn [lookup_fields get_path not_None].
    by destruct y.
  - apply IH; [done |].
    apply dict_get_elem_of in Hy. specialize (Hd ltac:(done)).
    rewrite Forall_forall in Hd. by destruct (Hd _ Hy).
Qed.

(** C10.  When two entries of the template recombine to the same keys
    and no entry after the second one does, a path along these keys
    leads, in the index the constructor has built, to the value of the
    second entry; and for an event whose configured fields read as
    these keys, the loop over the fields ends on that value (on
    nothing, when the value is [None]). *)
Theorem later_entry_overwrites (name template_path : string) (pat : pattern)
    (template : odict string value) (self : processor) (A : nat)
    (before between after : list (string * value))
    (key1 key2 : string) (value1 value2 : value) (keys : list string) :
  __init__ name template_path pat template = inr self ->
  list_index (allowed_delimiter_field pat) (fields pat) = Some A ->
  template = before ++ (key1, value1) :: between ++ (key2, value2) :: after ->
  entry_keys (fields pat) (delimiter pat) A key1 = Some keys ->
  entry_keys (fields pat) (delimiter pat) A key2 = Some keys ->
  (forall kv, kv ∈ after ->
              entry_keys (fields pat) (delimiter pat) A kv.1 ≠ Some keys) ->
  get_path (_mapping self) keys = Some value2
  /\ (forall event,
      fields_read_as event (_fields self) keys ->
      lookup_fields event (_fields self) (_mapping self)
        = inr (not_None (Some value2))).
Proof.
  intros Hinit HA Htemplate _ Hkeys2 Hafter.
  unfold __init__ in Hinit. rewrite HA in Hinit.
  unfold mbind, result_bind in Hinit. cbn [expect] in Hinit.
  destruct (add_entries name template_path (fields pat) (delimiter pat) A
              template (VDict [])) as [e | mapping] eqn:Hbuild; [done |].
  inversion Hinit; subst self. cbn [_mapping _fields]. clear Hinit.
  assert (fields pat ≠ []) as Hfields by (intros Heq; by rewrite Heq in HA).
  rewrite Htemplate in Hbuild.
  replace (before ++ (key1, value1) :: between ++ (key2, value2) :: after)
    with ((before ++ (key1, value1) :: between) ++ (key2, value2) :: after)
    in Hbuild by by rewrite <- app_assoc.
  destruct (add_entries_last name template_path (fields pat) (delimiter pat) A
              Hfields _ key2 value2 after keys (VDict []) mapping
              (wf_index_empty _ Hfields) Hbuild Hkeys2 Hafter)
    as (Hwf & Hlen & Hget).
  split; [done |]. intros event Hread.
  rewrite <- Hget. apply lookup_fields_get_path; [done | |].
  - intros ->. destruct (fields pat); done.
  - by rewrite Hlen.
Qed.

(** [later_entry_overwrites] on a template over the delimiter [_] in
    which the keys [x_y_c] and [x-y_c] both recombine to [x-y] and [c],
    and an entry with other keys comes last. *)
Lemma later_entry_overwrites_witness :
  exists self,
    __init__ "tr" "/etc/template.yml"
      {| target_field := "target"; fields := ["a"; "b"]; delimiter := "_";
         allowed_delimiter_field := "a" |}
      [("x_y_c", VStr "first"); ("x-y_c", VStr "second"); ("q_c", VInt 1)]
    = inr self /\
    get_path (_mapping self) ["x-y"; "c"] = Some (VStr "second") /\
    lookup_fields [("a", VStr "x-y"); ("b", VStr "c")] (_fields self)
      (_mapping self) = inr (Some (VStr "second")).
Proof.
  pose (self := {| _name := "tr"; _target_field := "target";
                   _target_field_split := ["target"];
                   _fields := ["a"; "b"];
                   _mapping :=
                     VDict [("x-y", VDict [("c", VStr "second")]);
                            ("q", VDict [("c", VInt 1)])] |}).
  exists self. split; [vm_compute; reflexivity |].
  destruct (later_entry_overwrites "tr" "/etc/template.yml"
              {| target_field := "target"; fields := ["a"; "b"];
                 delimiter := "_"; allowed_delimiter_field := "a" |}
              [("x_y_c", VStr "first"); ("x-y_c", VStr "second");
               ("q_c", VInt 1)]
              self 0 [] [] [("q_c", VInt 1)] "x_y_c" "x-y_c"
              (VStr "first") (VStr "second") ["x-y"; "c"])
    as [Hget Hlookup].
  - vm_compute. reflexivity.
  - reflexivity.
  - reflexivity.
  - vm_compute. reflexivity.
  - vm_compute. reflexivity.
  - intros kv Hin. apply list_elem_of_singleton in Hin. subst kv.
    vm_compute. discriminate.
  - split; [exact Hget |].
    apply (Hlookup [("a", VStr "x-y"); ("b", VStr "c")]).
    repeat constructor; eexists; (split; [reflexivity |]); by split.
Defined.

(** C5, at the failing input.  The fields [a] and [b] of the event
    resolve through the index to the payload, the target is
    [target.sub], and [target] holds a number: the test
    [field in dict_] of [_field_exists] is made on the number and
    raises, so the call raises instead of leaving the event alone. *)
Theorem lookup_raises_on_scalar_parent :
  let event := [("a", VStr "foo"); ("b", VStr "bar"); ("target", VInt 5)] in
  exists self,
    __init__ "tr" "/etc/template.yml" (Samples.two_fields "a")
      [("foo-bar", VStr "Z")] = inr self /\
    lookup_fields event (_fields self) (_mapping self) = inr (Some (VStr "Z")) /\
    get_path (VDict event) (_target_field_split self) = None /\
    _field_exists event (_target_field self) = inl (Builtin TypeError) /\
    _apply_rules self event = inl (Builtin TypeError).
Proof. eexists. repeat split; vm_compute; reflexivity. Qed.

End TemplateLookup.

(* ===================================================================== *)
(** * The resolver: what a rule application leaves in place *)
(* ===================================================================== *)

Module ResolverFrame.
Import Py Accessor GenericResolver Notions PyFacts.

Lemma kept_refl append x : kept append x x.
Proof.
  destruct x as [| b | z | s | l | d]; try done.
  destruct append; [| done]. by exists l.
Qed.

Lemma kept_trans append x y z : kept append x y -> kept append y z -> kept append x z.
Proof.
  destruct x as [| b | n | s | l | d]; simpl; try by intros ->.
  - destruct append; [| by intros ->].
    intros (l1 & -> & Hl1). simpl. intros (l2 & -> & Hl2).
    exists l2. split; [done |]. by etrans.
  - intros Hy. by destruct y.
Qed.

Lemma only_grows_refl append d : only_grows append d d.
Proof. intros path x Hx. exists x. split; [done | apply kept_refl]. Qed.

Lemma only_grows_trans append d1 d2 d3 :
  only_grows append d1 d2 -> only_grows append d2 d3 -> only_grows append d1 d3.
Proof.
  intros H12 H23 path x Hx.
  destruct (H12 path x Hx) as (y & Hy & Hxy).
  destruct (H23 path y Hy) as (z & Hz & Hyz).
  exists z. split; [done |]. by eapply kept_trans.
Qed.

(** A new key beside the others. *)
Lemma only_grows_new_key append key v d :
  dict_get key d = None -> only_grows append d (dict_set key v d).
Proof.
  intros Hkey [| k path] x Hx.
  - inversion Hx. by eexists.
  - cbn [get_path] in *. destruct (dict_get k d) as [y |] eqn:Hy; [| done].
    rewrite dict_get_set_ne by congruence. rewrite Hy.
    exists x. split; [done | apply kept_refl].
Qed.

(** A dictionary of the event replaced by one that has grown. *)
Lemma only_grows_inside append key sub sub' d :
  dict_get key d = Some (VDict sub) ->
  only_grows append sub sub' ->
  only_grows append d (dict_set key (VDict sub') d).
Proof.
  intros Hkey Hsub [| k path] x Hx.
  - inversion Hx. by eexists.
  - cbn [get_path] in *. destruct (decide (k = key)) as [-> | Hne].
    + rewrite dict_get_set_eq. rewrite Hkey in Hx. by apply Hsub.
    + rewrite dict_get_set_ne by done.
      destruct (dict_get k d) as [y |]; [| done].
      exists x. split; [done | apply kept_refl].
Qed.

(** A list of the event with an element appended. *)
Lemma only_grows_appended key l v d :
  dict_get key d = Some (VList l) ->
  only_grows true d (dict_set key (VList (l ++ [v])) d).
Proof.
  intros Hkey [| k path] x Hx.
  - inversion Hx. by eexists.
  - cbn [get_path] in *. destruct (decide (k = key)) as [-> | Hne].
    + rewrite dict_get_set_eq. rewrite Hkey in Hx.
      destruct path; [| done]. inversion Hx. eexists. split; [done |].
      exists (l ++ [v]). split; [done | by apply prefix_app_r].
    + rewrite dict_get_set_ne by done.
      destruct (dict_get k d) as [y |]; [| done].
      exists x. split; [done | apply kept_refl].
Qed.

(** The loop over the keys of a target only adds to the dictionary it
    works on. *)
Lemma write_keys_only_grows append dest len keys :
  forall idx d d' conflicting exc,
  write_keys append dest len idx keys d = (d', conflicting, exc) ->
  only_grows append d d'.
Proof.
  induction keys as [| key rest IH]; intros idx d d' conflicting exc.
  { intros [= <- _ _]. apply only_grows_refl. }
  cbn [write_keys].
  destruct (dict_get key d) as [y |] eqn:Hy.
  - (* the key is there *)
    assert (dict_mem key d = true) as -> by (apply dict_mem_true; by eexists).
    cbn [negb andb]. rewrite Hy.
    assert (forall i d0 c0 e0,
               write_keys append dest len i rest d = (d0, c0, e0) ->
               only_grows append d d0) as Hsame by (intros; by eapply IH).
    destruct y as [| b | z | s | l | sub].
    6: { destruct (write_keys append dest len (S idx) rest sub)
           as [[sub' c] e] eqn:Hw.
         intros [= <- _ _]. eapply only_grows_inside; [done |]. by eapply IH. }
    all: destruct append; cbn [andb isinstance_list].
    all: try (destruct (write_keys _ dest len (S idx) rest d)
                as [[d2 c] e] eqn:Hw;
              intros [= <- _ _]; by eapply Hsame).
    destruct dest as [e | v].
    + intros [= <- _ _]. apply only_grows_refl.
    + intros Hw. destruct (py_in v l); cbn [negb] in Hw.
      * by eapply IH.
      * eapply only_grows_trans; [by apply only_grows_appended |].
        by eapply IH.
  - (* the key is missing *)
    assert (dict_mem key d = false) as -> by by apply dict_mem_false.
    cbn [negb andb].
    destruct (idx =? len - 1).
    + destruct append.
      * destruct (dict_get "key" d) as [x |] eqn:Hliteral.
        -- assert (key ≠ "key") as Hne by congruence.
           destruct x as [| b | z | s | l | sub], dest as [e | v];
             intros [= <- _ _]; try by apply only_grows_new_key.
           eapply only_grows_trans; [by apply only_grows_new_key |].
           apply only_grows_appended. by rewrite dict_get_set_ne.
        -- destruct dest; intros [= <- _ _]; by apply only_grows_new_key.
      * destruct dest; intros [= <- _ _];
          [apply only_grows_refl | by apply only_grows_new_key].
    + rewrite dict_get_set_eq.
      destruct (write_keys append dest len (S idx) rest [])
        as [[sub' c] e] eqn:Hw.
      intros [= <- _ _]. rewrite dict_set_set. by apply only_grows_new_key.
Qed.

Section fixed_database.
Variable hs_scan : Database -> string -> list nat.
Variables (db : Database) (vm : value_mapping) (append : bool).

Lemma resolve_field_only_grows event source target event' conflicting exc :
  resolve_field hs_scan db vm append event source target
    = (event', conflicting, exc) ->
  only_grows append event event'.
Proof.
  unfold resolve_field.
  destruct (truthy_opt _).
  2: { intros [= <- _ _]. apply only_grows_refl. }
  destruct (scan hs_scan db _) as [e | [| x l]].
  1, 2: intros [= <- _ _]; apply only_grows_refl.
  apply write_keys_only_grows.
Qed.

Lemma resolve_fields_only_grows items :
  forall event acc event' conflicting exc,
  resolve_fields hs_scan db vm append items event acc
    = (event', conflicting, exc) ->
  only_grows append event event'.
Proof.
  induction items as [| [source target] items IH];
    intros event acc event' conflicting exc.
  { intros [= <- _ _]. apply only_grows_refl. }
  cbn [resolve_fields].
  destruct (resolve_field hs_scan db vm append event source target)
    as [[event1 c] exc1] eqn:Hone.
  apply resolve_field_only_grows in Hone.
  destruct exc1 as [e |].
  - by intros [= <- _ _].
  - intros Hrest. eapply only_grows_trans; [done |]. by eapply IH.
Qed.
End fixed_database.

(** X2.  Whatever a rule application does and however it ends, every
    path of the event still leads somewhere afterwards: where it led to
    a dictionary it leads to a dictionary, where it led to a list it
    leads to a list that begins with the old elements (to the same
    list, when the rule does not append), and where it led to anything
    else it leads to the same value.  No key is removed and no value
    that is not a dictionary or a list is replaced. *)
Theorem resolver_only_adds loadb dumpb hs_compiles
    (hs_scan : Database -> string -> list nat) (self : processor)
    (event : dict) (rule : GenericResolverRule) (st : state) :
  only_grows (append_to_list rule) event
    (_apply_rules loadb dumpb hs_compiles hs_scan self event rule st).1.2.
Proof.
  unfold _apply_rules.
  destruct (_get_hyperscan_database loadb dumpb hs_compiles self rule st)
    as [st' [e | [db vm]]]; [apply only_grows_refl |].
  destruct (resolve_fields hs_scan db vm (append_to_list rule)
              (field_mapping rule) event []) as [[event' c] exc] eqn:Hloop.
  apply resolve_fields_only_grows in Hloop.
  by destruct exc, c.
Qed.

End ResolverFrame.

(* ===================================================================== *)
(** * The resolver: absent targets, skipped mappings, the error text *)
(* ===================================================================== *)

Module ResolverEdges.
Import Py Accessor GenericResolver Notions PyFacts.

(** [conflict_at_last_key_changes_nothing] on the target [a.b] whose
    last key holds text: the event is left as it was and [b] is
    recorded. *)
Lemma conflict_at_last_key_witness :
  write_keys false (inr (VStr "X")) 2 0 ["a"; "b"]
    [("src", VStr "abc"); ("a", VDict [("b", VStr "old")])]
  = ([("src", VStr "abc"); ("a", VDict [("b", VStr "old")])], ["b"], None).
Proof.
  apply (ResolverWrites.conflict_at_last_key_changes_nothing false
           (inr (VStr "X")) 2 0 ["a"; "b"]
           [("src", VStr "abc"); ("a", VDict [("b", VStr "old")])]
           (VStr "old") "b"); reflexivity.
Defined.




Section fixed_database.
Variable hs_scan : Database -> string -> list nat.
Variables (db : Database) (vm : value_mapping) (append : bool).

Lemma resolve_field_skipped event source target :
  skipped hs_scan db event (source, target) ->
  resolve_field hs_scan db vm append event source target = (event, [], None).
Proof.
  unfold skipped, resolve_field. cbn [fst].
  intros [-> | (text & -> & Hscan)]; [done |].
  cbn [truthy_opt truthy]. destruct (negb (String.eqb text "")); [| done].
  change (default VNone (Some (VStr text))) with (VStr text).
  cbn [scan]. by rewrite Hscan.
Qed.

Lemma resolve_fields_skipped items event acc :
  Forall (skipped hs_scan db event) items ->
  resolve_fields hs_scan db vm append items event acc = (event, acc, None).
Proof.
  intros Hall. revert acc.
  induction Hall as [| [source target] items Hone _ IH]; intros acc;
    [done |].
  cbn [resolve_fields]. rewrite (resolve_field_skipped _ _ _ Hone).
  by rewrite app_nil_r, IH.
Qed.
End fixed_database.

(** X4.  When, for every field mapping of the rule, the source field is
    missing from the event, or holds a falsy value, or holds a text that
    no pattern of the database of the rule matches, the rule application
    leaves the event as it was.  The database is obtained before the
    mappings are looked at: the application returns when it is
    obtained, and raises what obtaining it raises otherwise, as it does
    for a rule without patterns that has no database file. *)
Theorem unmatched_sources_change_nothing loadb dumpb hs_compiles
    (hs_scan : Database -> string -> list nat) (self : processor)
    (event : dict) (rule : GenericResolverRule) (st : state) :
  (forall db vm,
      (_get_hyperscan_database loadb dumpb hs_compiles self rule st).2
        = inr (db, vm) ->
      Forall (skipped hs_scan db event) (field_mapping rule)) ->
  _apply_rules loadb dumpb hs_compiles hs_scan self event rule st =
  ((_get_hyperscan_database loadb dumpb hs_compiles self rule st).1, event,
   match (_get_hyperscan_database loadb dumpb hs_compiles self rule st).2 with
   | inl e => inl e
   | inr _ => inr tt
   end).
Proof.
  intros Hskip. unfold _apply_rules.
  destruct (_get_hyperscan_database loadb dumpb hs_compiles self rule st)
    as [st' [e | [db vm]]]; [done |].
  by rewrite (resolve_fields_skipped _ _ _ _ _ _ _ (Hskip db vm eq_refl)).
Qed.

(** [unmatched_sources_change_nothing] on an event without the source
    field [src], for a rule without patterns in a fresh processor
    without files: the event is left as it was and the application
    raises the error of the compilation. *)
Lemma unmatched_sources_change_nothing_witness :
  _apply_rules Samples.sample_loadb Samples.sample_dumpb
    Samples.literal_compiles Samples.literal_scan
    Samples.resolver [("other", VStr "abc"); ("target", VInt 1)]
    Samples.rule_without_patterns Samples.fresh =
  (add_log (Opened_for_reading "/tmp/dbs/rule_file.db") Samples.fresh,
   [("other", VStr "abc"); ("target", VInt 1)],
   inl (GenericResolverError
          (GenericResolverError_message "test"
             "No patter to compile for hyperscan database!"))).
Proof.
  apply (unmatched_sources_change_nothing Samples.sample_loadb
           Samples.sample_dumpb Samples.literal_compiles Samples.literal_scan
           Samples.resolver [("other", VStr "abc"); ("target", VInt 1)]
           Samples.rule_without_patterns Samples.fresh).
  intros db vm _. constructor; [| constructor]. left. reflexivity.
Defined.

(** The same event under a rule with patterns: the database is
    compiled, the application returns, and the event is as it was. *)
Example unmatched_source_with_patterns :
  Samples.resolve [("other", VStr "abc"); ("target", VInt 1)] "target" false
  = ([("other", VStr "abc"); ("target", VInt 1)], inr tt).
Proof. vm_compute. reflexivity. Qed.

(** ** The text of the error *)

Lemma prefix_append (s t : string) : String.prefix s (s +:+ t) = true.
Proof.
  induction s as [| c s IH]; [by destruct t |].
  simpl. by destruct (Ascii.ascii_dec c c).
Qed.

Lemma is_substring_prefix (sub s : string) :
  String.prefix sub s = true -> is_substring sub s = true.
Proof. intros H. destruct s; cbn [is_substring]; by rewrite H. Qed.

Lemma is_substring_here (s t : string) : is_substring s (s +:+ t) = true.
Proof. apply is_substring_prefix, prefix_append. Qed.

Lemma is_substring_after (sub s t : string) :
  is_substring sub t = true -> is_substring sub (s +:+ t) = true.
Proof.
  intros Ht. induction s as [| c s IH]; [done |].
  change (String c s +:+ t) with (String c (s +:+ t)).
  cbn [is_substring]. rewrite IH. apply orb_true_r.
Qed.

Lemma is_substring_self (s : string) : is_substring s s = true.
Proof.
  apply is_substring_prefix.
  induction s as [| c s IH]; [done |].
  simpl. by destruct (Ascii.ascii_dec c c).
Qed.

Lemma is_substring_join (sep name : string) (l : list string) :
  name ∈ l -> is_substring name (py_join sep l) = true.
Proof.
  induction l as [| x l IH]; [by intros ?%elem_of_nil |].
  intros Hin. cbn [py_join]. destruct l as [| y l'].
  - apply list_elem_of_singleton in Hin as ->. apply is_substring_self.
  - apply elem_of_cons in Hin as [-> | Hin].
    + apply is_substring_here.
    + apply is_substring_after, is_substring_after. by apply IH.
Qed.

(** X5.  The text of a [DuplicationError] has the name of the processor
    in it and every one of the skipped fields it was made for. *)
Theorem duplication_error_names_all (name : string)
    (skipped_fields : list string) :
  is_substring name (DuplicationError_message name skipped_fields) = true /\
  Forall (fun field =>
            is_substring field (DuplicationError_message name skipped_fields)
            = true) skipped_fields.
Proof.
  unfold DuplicationError_message, GenericResolverError_message. split.
  - apply is_substring_after, is_substring_here.
  - apply Forall_forall. intros field Hin.
    do 5 apply is_substring_after. by apply is_substring_join.
Qed.

End ResolverEdges.

(* ===================================================================== *)
(** * The resolver: the persistence directory *)
(* ===================================================================== *)

Module ResolverPersistence.
Import Py GenericResolver Notions PyFacts ResolverStore.

Section store.
Variable loadb : string -> option Database.
Variable dumpb : Database -> string.
Variable hs_compiles : Database -> bool.
Variable self : processor.

Local Abbreviation acquire := (_get_hyperscan_database loadb dumpb hs_compiles self).

(** The value mapping a compilation returns is the one the loop over
    the resolve list gives. *)
Lemma create_database_mapping resolve_list st stc db vm :
  _create_database hs_compiles self resolve_list st = (stc, inr (db, vm)) ->
  fill_value_mapping resolve_list (enumerate (dict_keys resolve_list)) []
  = inr vm.
Proof.
  unfold _create_database, mbind, Store_bind, lift.
  destruct (fill_value_mapping _ _ _) as [e | vm0]; [done |].
  destruct (db_patterns_of resolve_list) as [| t pats]; [done |].
  cbn zeta. unfold log, modify, mret, Store_ret, raise. cbn [fst snd].
  destruct (hs_compiles _); [| done]. by intros [= _ _ <-].
Qed.

(** What a compilation returns does not depend on the state. *)
Lemma create_database_result resolve_list st st' :
  (_create_database hs_compiles self resolve_list st).2
  = (_create_database hs_compiles self resolve_list st').2.
Proof.
  unfold _create_database, mbind, Store_bind, lift.
  destruct (fill_value_mapping _ _ _) as [e | vm0]; [done |].
  destruct (db_patterns_of resolve_list); [done |].
  cbn zeta. unfold log, modify. cbn [fst snd]. by destruct (hs_compiles _).
Qed.

Lemma create_database_files resolve_list st :
  files (_create_database hs_compiles self resolve_list st).1 = files st /\
  _hyperscan_databases (_create_database hs_compiles self resolve_list st).1
  = _hyperscan_databases st.
Proof.
  by destruct (create_database_state hs_compiles self resolve_list st) as [-> | [n ->]].
Qed.

(** One call: a file that exists keeps its content, and a file that
    appears is the database file of the rule, which asked for it. *)
Lemma acquire_files rule st :
  (forall p data, files st !! p = Some data ->
                  files (acquire rule st).1 !! p = Some data)
  /\ (forall p, files st !! p = None ->
                is_Some (files (acquire rule st).1 !! p) ->
                store_db_persistent rule = true /\
                p = db_file self (file_name rule)).
Proof.
  destruct (_hyperscan_databases st !! file_name rule) as [entry |] eqn:Hc.
  { rewrite (acquire_hit _ _ _ _ _ _ _ Hc). cbn [fst]. split; [done |].
    intros p Hp [x Hx]. simpl in *. congruence. }
  rewrite (acquire_miss _ _ _ _ _ _ Hc). cbn zeta.
  destruct (files st !! db_file self (file_name rule)) as [data |] eqn:Hfile.
  - assert (forall r : state * result (Database * value_mapping),
              r = match fill_value_mapping (resolve_list rule)
                          (enumerate (dict_keys (resolve_list rule))) [],
                        loadb data with
                  | inr vm, Some db =>
                      (set_cache (file_name rule) (db, vm)
                         (add_log (Opened_for_reading
                                     (db_file self (file_name rule))) st),
                       inr (db, vm))
                  | inr vm, None =>
                      (add_log (Opened_for_reading
                                  (db_file self (file_name rule))) st,
                       inl HyperscanError)
                  | inl e, _ =>
                      (add_log (Opened_for_reading
                                  (db_file self (file_name rule))) st, inl e)
                  end -> files r.1 = files st) as Hsame.
    { intros r ->. destruct (fill_value_mapping _ _ _); [done |].
      by destruct (loadb data). }
    rewrite (Hsame _ eq_refl). split; [done |].
    intros p Hp [x Hx]. simpl in *. congruence.
  - set (st0 := add_log _ st).
    destruct (create_database_files (resolve_list rule) st0) as [Hfiles _].
    destruct (_create_database hs_compiles self (resolve_list rule) st0)
      as [stc [e | entry]].
    + cbn [fst] in *. rewrite Hfiles. split; [done |].
      intros p Hp [x Hx]. simpl in *. congruence.
    + cbn [fst set_cache files] in *.
      destruct (store_db_persistent rule).
      * cbn [set_file files add_log]. rewrite Hfiles. cbn [st0 add_log files].
        split.
        -- intros p data Hp. rewrite lookup_insert_ne; [done |].
           intros <-. congruence.
        -- intros p Hp [x Hx]. split; [done |].
           destruct (decide (db_file self (file_name rule) = p)); [done |].
           rewrite lookup_insert_ne in Hx by done. congruence.
      * rewrite Hfiles. split; [done |]. intros p Hp [x Hx]. simpl in *. congruence.
Qed.

(** X6.  Whatever calls are made, a file of the persistence directory
    that exists keeps its content: no database file is written over.
    A file that has appeared is the database file of one of the rules
    of the calls, and that rule asks for persistence. *)
Theorem persisted_files_are_kept (rules : list GenericResolverRule)
    (st : state) :
  (forall p data,
      files st !! p = Some data ->
      files (acquire_all loadb dumpb hs_compiles self rules st) !! p = Some data)
  /\ (forall p,
      files st !! p = None ->
      is_Some (files (acquire_all loadb dumpb hs_compiles self rules st) !! p) ->
      exists rule, rule ∈ rules /\ store_db_persistent rule = true /\
                   p = db_file self (file_name rule)).
Proof.
  revert st. induction rules as [| rule rules IH]; intros st.
  { split; [done |]. intros p Hp [x Hx]. simpl in *. congruence. }
  cbn [acquire_all foldl].
  destruct (acquire_files rule st) as [Hkeep1 Hnew1].
  destruct (IH (acquire rule st).1) as [Hkeep Hnew].
  split.
  - intros p data Hp. by apply Hkeep, Hkeep1.
  - intros p Hp Hsome.
    destruct (files (acquire rule st).1 !! p) as [data |] eqn:Hmid.
    + destruct (Hnew1 p Hp) as [Hflag ->]; [by rewrite Hmid |].
      exists rule. split; [left | done].
    + destruct (Hnew p Hmid Hsome) as (rule' & Hin & Hflag & ->).
      exists rule'. split; [by right | done].
Qed.

(** X7.  A rule that asks for persistence and had to compile leaves a
    file from which a new processor instance gets the same pair: if the
    library reads back what it wrote, the first call of the new
    instance opens the file, does not compile, and returns the database
    and value mapping the former instance returned. *)
Theorem persisted_database_is_reloaded rule st st1 entry :
  _hyperscan_databases st !! file_name rule = None ->
  files st !! db_file self (file_name rule) = None ->
  store_db_persistent rule = true ->
  acquire rule st = (st1, inr entry) ->
  loadb (dumpb entry.1) = Some entry.1 ->
  acquire rule (restart st1) =
  (set_cache (file_name rule) entry
     (add_log (Opened_for_reading (db_file self (file_name rule)))
        (restart st1)),
   inr entry).
Proof.
  intros Hmiss Hfile Hflag Hcall Hround.
  rewrite (acquire_miss _ _ _ _ _ _ Hmiss) in Hcall. cbn zeta in Hcall.
  rewrite Hfile, Hflag in Hcall.
  destruct (_create_database hs_compiles self (resolve_list rule) _)
    as [stc [e | [db vm]]] eqn:Hcreate; [done |].
  inversion Hcall; subst st1 entry. clear Hcall.
  apply create_database_mapping in Hcreate.
  rewrite acquire_miss by done. cbn zeta.
  cbn [restart files set_cache set_file]. rewrite lookup_insert_eq.
  rewrite Hcreate. cbn [fst] in Hround. by rewrite Hround.
Qed.

(** X8.  When the database file of a rule exists and the library reads
    it, a call for an identity that is not cached returns the database
    of the file paired with the value mapping enumerated from the
    resolve list the rule has now.  Nothing is compiled: the call does
    not fail on an empty resolve list, and the patterns the file was
    compiled from play no part. *)
Theorem loaded_database_pairs_with_current_list rule st data db :
  NoDup (dict_keys (resolve_list rule)) ->
  _hyperscan_databases st !! file_name rule = None ->
  files st !! db_file self (file_name rule) = Some data ->
  loadb data = Some db ->
  let vm := (fun ikv : nat * (string * value) => (ikv.1, ikv.2.2))
              <$> enumerate (resolve_list rule) in
  acquire rule st =
  (set_cache (file_name rule) (db, vm)
     (add_log (Opened_for_reading (db_file self (file_name rule))) st),
   inr (db, vm)).
Proof.
  intros Hnodup Hmiss Hfile Hload vm.
  rewrite (acquire_miss _ _ _ _ _ _ Hmiss). cbn zeta.
  by rewrite Hfile, (fill_value_mapping_ordinal _ Hnodup), Hload.
Qed.

(** What a call returns or raises depends on the cache and the files
    only. *)
Lemma acquire_result_depends rule st st' :
  _hyperscan_databases st = _hyperscan_databases st' ->
  files st = files st' ->
  (acquire rule st).2 = (acquire rule st').2.
Proof.
  intros Hcache Hfiles.
  destruct (_hyperscan_databases st !! file_name rule) as [entry |] eqn:Hc.
  { rewrite (acquire_hit _ _ _ _ _ _ _ Hc).
    rewrite Hcache in Hc. by rewrite (acquire_hit _ _ _ _ _ _ _ Hc). }
  rewrite (acquire_miss _ _ _ _ _ _ Hc).
  rewrite Hcache in Hc. rewrite (acquire_miss _ _ _ _ _ _ Hc). cbn zeta.
  rewrite <- Hfiles.
  destruct (files st !! db_file self (file_name rule)) as [data |].
  - destruct (fill_value_mapping _ _ _); [done |]. by destruct (loadb data).
  - pose proof (create_database_result (resolve_list rule)
                  (add_log (Opened_for_reading
                              (db_file self (file_name rule))) st)
                  (add_log (Opened_for_reading
                              (db_file self (file_name rule))) st')) as Hres.
    destruct (_create_database hs_compiles self (resolve_list rule) (add_log _ st))
      as [stc [e | entry]];
      destruct (_create_database hs_compiles self (resolve_list rule) (add_log _ st'))
      as [stc' [e' | entry']]; cbn [snd] in *; congruence.
Qed.

(** X9.  A call that raises leaves the cache and the files as they
    were; nothing records the failure, and the same call made again
    raises the same exception. *)
Theorem failed_acquire_caches_nothing rule st st1 e :
  _get_hyperscan_database loadb dumpb hs_compiles self rule st = (st1, inl e) ->
  _hyperscan_databases st1 = _hyperscan_databases st /\
  files st1 = files st /\
  (_get_hyperscan_database loadb dumpb hs_compiles self rule st1).2 = inl e.
Proof.
  intros Hcall.
  assert (_hyperscan_databases st1 = _hyperscan_databases st /\
          files st1 = files st) as [Hcache Hfiles].
  { destruct (_hyperscan_databases st !! file_name rule) as [entry |] eqn:Hc.
    { by rewrite (acquire_hit _ _ _ _ _ _ _ Hc) in Hcall. }
    rewrite (acquire_miss _ _ _ _ _ _ Hc) in Hcall. cbn zeta in Hcall.
    destruct (files st !! db_file self (file_name rule)) as [data |].
    - destruct (fill_value_mapping _ _ _) as [err | vm].
      + by inversion Hcall.
      + destruct (loadb data); [done |]. by inversion Hcall.
    - set (st0 := add_log _ st) in *.
      destruct (create_database_files (resolve_list rule) st0)
        as [Hf Hcache].
      destruct (_create_database hs_compiles self (resolve_list rule) st0)
        as [stc [err | entry]]; [| done].
      inversion Hcall; subst. by cbn [fst] in *. }
  split; [done |]. split; [done |].
  rewrite (acquire_result_depends rule st1 st Hcache Hfiles).
  by rewrite Hcall.
Qed.
End store.

(** [persisted_database_is_reloaded] in a fresh processor without
    files, for a serialised form with one expression per line. *)
Lemma persisted_database_is_reloaded_witness :
  let acquire :=
    _get_hyperscan_database Samples.line_loadb Samples.sample_dumpb Samples.literal_compiles
      Samples.resolver (Samples.rule_to "target" false true) in
  exists entry,
    (acquire Samples.fresh).2 = inr entry /\
    acquire (restart (acquire Samples.fresh).1) =
    (set_cache "rule_file" entry
       (add_log (Opened_for_reading "/tmp/dbs/rule_file.db")
          (restart (acquire Samples.fresh).1)),
     inr entry).
Proof.
  intros acquire.
  destruct (acquire Samples.fresh) as [st1 [e | entry]] eqn:Hfirst;
    [by vm_compute in Hfirst |].
  exists entry. split; [done |].
  apply (persisted_database_is_reloaded Samples.line_loadb
           Samples.sample_dumpb Samples.literal_compiles Samples.resolver
           (Samples.rule_to "target" false true) Samples.fresh st1 entry);
    try reflexivity.
  - exact Hfirst.
  - vm_compute in Hfirst. inversion Hfirst. vm_compute. reflexivity.
Defined.

(** [loaded_database_pairs_with_current_list] on a rule without
    patterns and a file compiled from the pattern [old]: the call
    returns the database of the file with an empty value mapping. *)
Lemma loaded_database_pairs_with_current_list_witness :
  _get_hyperscan_database Samples.line_loadb Samples.sample_dumpb Samples.literal_compiles
    Samples.resolver Samples.rule_without_patterns Samples.with_old_file
  = (set_cache "rule_file"
       ({| expressions := ["old"]; ids := [0]; elements := 1;
           flags := [9%Z] |}, [])
       (add_log (Opened_for_reading "/tmp/dbs/rule_file.db")
          Samples.with_old_file),
     inr ({| expressions := ["old"]; ids := [0]; elements := 1;
             flags := [9%Z] |}, [])).
Proof.
  apply (loaded_database_pairs_with_current_list Samples.line_loadb
           Samples.sample_dumpb Samples.literal_compiles Samples.resolver
           Samples.rule_without_patterns Samples.with_old_file "old").
  - constructor.
  - reflexivity.
  - vm_compute. reflexivity.
  - vm_compute. reflexivity.
Defined.

(** [failed_acquire_caches_nothing] on a rule without patterns in a
    fresh processor without files. *)
Lemma failed_acquire_caches_nothing_witness :
  let first :=
    _get_hyperscan_database Samples.sample_loadb Samples.sample_dumpb Samples.literal_compiles
      Samples.resolver Samples.rule_without_patterns Samples.fresh in
  exists e,
    first.2 = inl e /\
    _hyperscan_databases first.1 = _hyperscan_databases Samples.fresh /\
    files first.1 = files Samples.fresh /\
    (_get_hyperscan_database Samples.sample_loadb Samples.sample_dumpb Samples.literal_compiles
       Samples.resolver Samples.rule_without_patterns first.1).2 = inl e.
Proof.
  intros first.
  destruct first as [st1 [e | entry]] eqn:Hfirst; [| by vm_compute in Hfirst].
  exists e. split; [done |].
  apply (failed_acquire_caches_nothing Samples.sample_loadb
           Samples.sample_dumpb Samples.literal_compiles Samples.resolver
           Samples.rule_without_patterns Samples.fresh st1 e Hfirst).
Defined.

End ResolverPersistence.

(* ===================================================================== *)
(** * The template replacer: refused keys and the entries of the index *)
(* ===================================================================== *)

Module TemplateEdges.
Import Py Accessor TemplateReplacer Notions PyFacts TemplateKeys.




Section one_configuration.
Variables (name template_path : string) (fields : list string).
Variables (delimiter : string) (A : nat).
Hypothesis some_field : fields ≠ [].

Local Abbreviation F := (length fields).
Local Abbreviation add_all :=
  (add_entries name template_path fields delimiter A).
Local Abbreviation keys_of := (entry_keys fields delimiter A).

(** What a path of full length leads to after the loop over the entries
    was put there by one of the entries, or was there before. *)
Lemma add_entries_sound items :
  forall mapping mapping',
  wf_index F mapping ->
  add_all items mapping = inr mapping' ->
  forall keys v,
    length keys = F ->
    get_path mapping' keys = Some v ->
    (exists key, (key, v) ∈ items /\ keys_of key = Some keys) \/
    get_path mapping keys = Some v.
Proof.
  induction items as [| [key value] items IH]; intros mapping mapping' Hwf.
  - intros [= <-] keys v _ Hget. by right.
  - cbn [add_entries]. unfold mbind, result_bind.
    destruct (add_entry name template_path fields delimiter A key value mapping)
      as [e | mapping1] eqn:Hadd; [done |].
    intros Hrest keys v Hlen Hget.
    destruct (add_entry_keys _ _ _ _ _ _ _ _ _ Hadd) as (keys1 & Hkeys1 & Hlen1).
    destruct (add_entry_ok name template_path fields delimiter A some_field
                key value mapping keys1 Hkeys1 Hlen1 Hwf)
      as (mapping1' & Hadd' & Hwf1 & Hget1 & Hother).
    rewrite Hadd in Hadd'. inversion Hadd'; subst mapping1'.
    destruct (IH mapping1 mapping' Hwf1 Hrest keys v Hlen Hget)
      as [(key' & Hin & Hkeys') | Hbefore].
    + left. exists key'. split; [by right | done].
    + destruct (decide (keys = keys1)) as [-> | Hne].
      * left. exists key. rewrite Hget1 in Hbefore.
        inversion Hbefore; subst. split; [left | done].
      * right. by rewrite <- (Hother keys Hlen Hne).
Qed.
End one_configuration.

(** X11.  The index the constructor builds is a well-formed index as
    deep as there are fields, and holds nothing but the template: a
    path of as many keys as there are fields leads to a value only if
    an entry of the template with that value recombines to these
    keys. *)
Theorem index_holds_only_template_entries (name template_path : string)
    (pat : pattern) (template : odict string value) (self : processor)
    (A : nat) :
  __init__ name template_path pat template = inr self ->
  list_index (allowed_delimiter_field pat) (fields pat) = Some A ->
  wf_index (length (fields pat)) (_mapping self)
  /\ (forall keys v,
      length keys = length (fields pat) ->
      get_path (_mapping self) keys = Some v ->
      exists key, (key, v) ∈ template /\
                  entry_keys (fields pat) (delimiter pat) A key = Some keys).
Proof.
  intros Hinit HA. unfold __init__ in Hinit. rewrite HA in Hinit.
  unfold mbind, result_bind in Hinit. cbn [expect] in Hinit.
  destruct (add_entries name template_path (fields pat) (delimiter pat) A
              template (VDict [])) as [e | mapping] eqn:Hbuild; [done |].
  inversion Hinit; subst self. cbn [_mapping]. clear Hinit.
  assert (fields pat ≠ []) as Hfields by (intros Heq; by rewrite Heq in HA).
  pose proof (wf_index_empty _ Hfields) as Hempty.
  split.
  - by destruct (add_entries_spec name template_path (fields pat)
                   (delimiter pat) A Hfields _ _ _ Hempty Hbuild).
  - intros keys v Hlen Hget.
    destruct (add_entries_sound name template_path (fields pat) (delimiter pat)
                A Hfields template _ _ Hempty Hbuild keys v Hlen Hget)
      as [Hentry | Hold]; [done |].
    destruct keys as [| k keys]; [| done].
    simpl in Hlen. destruct (fields pat); done.
Qed.

(** [index_holds_only_template_entries] on a template of one entry. *)
Lemma index_holds_only_template_entries_witness :
  exists self,
    __init__ "tr" "/etc/template.yml" (Samples.two_fields "a")
      [("foo-bar", VStr "Z")] = inr self /\
    wf_index 2 (_mapping self) /\
    (forall keys v,
        length keys = 2 ->
        get_path (_mapping self) keys = Some v ->
        exists key, (key, v) ∈ [("foo-bar", VStr "Z")] /\
                    entry_keys ["a"; "b"] "-" 0 key = Some keys).
Proof.
  pose (self := {| _name := "tr"; _target_field := "target.sub";
                   _target_field_split := ["target"; "sub"];
                   _fields := ["a"; "b"];
                   _mapping := VDict [("foo", VDict [("bar", VStr "Z")])] |}).
  exists self. split; [vm_compute; reflexivity |].
  apply (index_holds_only_template_entries "tr" "/etc/template.yml"
           (Samples.two_fields "a") [("foo-bar", VStr "Z")] self 0).
  - vm_compute. reflexivity.
  - reflexivity.
Defined.

End TemplateEdges.

(* ===================================================================== *)
(** * The template replacer: the target field *)
(* ===================================================================== *)

Module TemplateApply.
Import Py Accessor TemplateReplacer Notions PyFacts TemplateKeys.

Lemma split_go_not_nil (sep : string) (s : string) :
  forall skip cur, split_go sep skip cur s ≠ [].
Proof.
  induction s as [| c s IH]; intros skip cur; [done |].
  cbn [split_go]. destruct skip; [| apply IH].
  destruct (String.prefix sep (String c s)); [done | apply IH].
Qed.

Lemma split_dots_not_nil (s : string) : split_dots s ≠ [].
Proof. apply split_go_not_nil. Qed.

(** [l[:-1]] followed by [l[-1]] is [l]. *)
Lemma slice_to_last {A} (l : list A) (x : A) :
  last l = Some x -> slice_to (-1) l ++ [x] = l.
Proof.
  intros Hlast. change (-1)%Z with (- Z.of_nat 1)%Z.
  rewrite slice_to_neg by lia.
  induction l as [| y l IH]; [done |].
  destruct l as [| z l'].
  - by inversion Hlast.
  - rewrite last_cons_cons in Hlast. specialize (IH Hlast).
    cbn [length] in *. replace (S (S (length l')) - 1) with (S (length l')) by lia.
    replace (S (length l') - 1) with (length l') in IH by lia.
    cbn [take app]. by rewrite IH.
Qed.

(** The loop of [_field_exists] against the path through mappings. *)
Lemma field_exists_from_spec (fields : list string) :
  forall v,
  (field_exists_from v fields = inr true <-> is_Some (get_path v fields))
  /\ (field_exists_from v fields = inr false -> get_path v fields = None)
  /\ (missing_in_mapping v fields -> field_exists_from v fields = inr false).
Proof.
  induction fields as [| field rest IH]; intros v.
  { cbn [field_exists_from get_path missing_in_mapping].
    split; [split; [by eexists | done] |]. split; [done | done]. }
  cbn [field_exists_from get_path missing_in_mapping].
  unfold mbind, result_bind.
  destruct v as [| b | z | s | l | d]; cbn [py_contains py_getitem builtin].
  1-3: split; [split; [done | by intros [x Hx]] |]; split; done.
  - (* a text: the name may occur in it, but it has no items *)
    destruct (is_substring field s);
      (split; [split; [done | by intros [x Hx]] |]; split; done).
  - (* a list *)
    destruct (py_in (VStr field) l);
      (split; [split; [done | by intros [x Hx]] |]; split; done).
  - (* a mapping *)
    unfold dict_mem. destruct (dict_get field d) as [x |].
    + cbn [builtin]. apply IH.
    + split; [split; [done | by intros [x Hx]] |]. split; done.
Qed.

(** X12.  When [_field_exists] returns, it tells whether the dotted
    path leads through mappings to a value: it returns [True] exactly
    when it does, and [False] only when it does not.  It returns
    [False] whenever the first key that is missing is missing from a
    mapping. *)
Theorem field_exists_means_path (event : dict) (dotted_field : string) :
  (_field_exists event dotted_field = inr true <->
   is_Some (get_path (VDict event) (split_dots dotted_field)))
  /\ (_field_exists event dotted_field = inr false ->
      get_path (VDict event) (split_dots dotted_field) = None)
  /\ (missing_in_mapping (VDict event) (split_dots dotted_field) ->
      _field_exists event dotted_field = inr false).
Proof. apply field_exists_from_spec. Qed.

(** The assignment of lines 162-165 at a path that exists: the path
    leads to the payload afterwards, and the paths that neither lead to
    the target nor go through it lead where they led. *)
Lemma assign_at_spec (last_name : string) (payload old : value)
    (subfields : list string) :
  forall d,
  get_path (VDict d) (subfields ++ [last_name]) = Some old ->
  exists d',
    assign_at (VDict d) subfields last_name payload = inr (VDict d') /\
    get_path (VDict d') (subfields ++ [last_name]) = Some payload /\
    (forall path,
        ~ path `prefix_of` (subfields ++ [last_name]) ->
        ~ (subfields ++ [last_name]) `prefix_of` path ->
        get_path (VDict d') path = get_path (VDict d) path).
Proof.
  induction subfields as [| subfield rest IH]; intros d Hget.
  - cbn [app get_path] in *. cbn [assign_at py_setitem builtin].
    eexists. split; [done |]. split.
    + by rewrite dict_get_set_eq.
    + intros [| k path] Hnot_prefix Hnot_below.
      * exfalso. apply Hnot_prefix. apply prefix_nil.
      * cbn [get_path]. rewrite dict_get_set_ne; [done |].
        intros <-. apply Hnot_below. apply prefix_cons, prefix_nil.
  - cbn [app get_path] in Hget.
    destruct (dict_get subfield d) as [child |] eqn:Hchild; [| done].
    assert (exists c, child = VDict c) as [c ->].
    { destruct child; try (by destruct rest); by eexists. }
    destruct (IH c Hget) as (c' & Hassign & Hget' & Hframe).
    cbn [assign_at]. unfold mbind, result_bind.
    cbn [py_getitem builtin]. rewrite Hchild. cbn [builtin].
    rewrite Hassign. cbn [py_setitem builtin].
    eexists. split; [done |]. split.
    + cbn [app get_path]. by rewrite dict_get_set_eq.
    + intros [| k path] Hnot_prefix Hnot_below.
      * exfalso. apply Hnot_prefix. apply prefix_nil.
      * cbn [get_path]. destruct (decide (k = subfield)) as [-> | Hne].
        -- rewrite dict_get_set_eq, Hchild. apply Hframe.
           ++ intros Hp. apply Hnot_prefix. by apply prefix_cons.
           ++ intros Hp. apply Hnot_below. by apply prefix_cons.
        -- by rewrite dict_get_set_ne.
Qed.

(** X13.  When the configured fields of the event resolve through the
    index to a payload and the target path leads through mappings to a
    value, the call returns; afterwards the target path leads to the
    payload, and every path that neither is part of the target path nor
    goes through it leads where it led before. *)
Theorem target_rewritten_in_place (self : processor) (event : dict)
    (payload old : value) :
  _target_field_split self = split_dots (_target_field self) ->
  lookup_fields event (_fields self) (_mapping self) = inr (Some payload) ->
  payload ≠ VNone ->
  get_path (VDict event) (_target_field_split self) = Some old ->
  exists event',
    _apply_rules self event = inr event' /\
    get_path (VDict event') (_target_field_split self) = Some payload /\
    (forall path,
        ~ path `prefix_of` _target_field_split self ->
        ~ _target_field_split self `prefix_of` path ->
        get_path (VDict event') path = get_path (VDict event) path).
Proof.
  intros Hsplit Hlookup Hpayload Hold.
  unfold _apply_rules. rewrite Hlookup. unfold mbind, result_bind.
  assert (is_None (Some payload) = false) as -> by by destruct payload.
  destruct (field_exists_means_path event (_target_field self))
    as [[_ Hexists] _].
  rewrite Hexists by (rewrite <- Hsplit, Hold; by eexists).
  destruct (last (_target_field_split self)) as [last_name |] eqn:Hlast.
  2: { apply last_None in Hlast. rewrite Hsplit in Hlast.
       by apply split_dots_not_nil in Hlast. }
  cbn [expect]. pose proof (slice_to_last _ _ Hlast) as Hwhole.
  rewrite <- Hwhole in Hold.
  destruct (assign_at_spec last_name payload old _ _ Hold)
    as (event' & -> & Hget & Hframe).
  rewrite Hwhole in Hget, Hframe.
  by exists event'.
Qed.

(** [target_rewritten_in_place] on the target [target.sub]. *)
Lemma target_rewritten_in_place_witness :
  let self := {| _name := "tr"; _target_field := "target.sub";
                 _target_field_split := ["target"; "sub"];
                 _fields := ["a"; "b"];
                 _mapping := VDict [("foo", VDict [("bar", VStr "Z")])] |} in
  let event := [("a", VStr "foo"); ("b", VStr "bar");
                ("target", VDict [("sub", VInt 1); ("other", VInt 2)])] in
  exists event',
    _apply_rules self event = inr event' /\
    get_path (VDict event') ["target"; "sub"] = Some (VStr "Z") /\
    (forall path,
        ~ path `prefix_of` ["target"; "sub"] ->
        ~ ["target"; "sub"] `prefix_of` path ->
        get_path (VDict event') path = get_path (VDict event) path).
Proof.
  intros self event.
  apply (target_rewritten_in_place self event (VStr "Z") (VInt 1));
    try reflexivity.
  discriminate.
Defined.

(** X14.  When the first key of the target path that is missing from
    the event is missing from a mapping, the call returns and leaves the
    event as it was, whatever the lookup in the index gave. *)
Theorem absent_target_left_alone (self : processor) (event : dict)
    (found : option value) :
  lookup_fields event (_fields self) (_mapping self) = inr found ->
  missing_in_mapping (VDict event) (split_dots (_target_field self)) ->
  _apply_rules self event = inr event.
Proof.
  intros Hlookup Hmissing. unfold _apply_rules. rewrite Hlookup.
  unfold mbind, result_bind. destruct found as [payload |]; [| done].
  destruct (is_None (Some payload)); [done |].
  destruct (field_exists_means_path event (_target_field self))
    as (_ & _ & Hfalse).
  by rewrite (Hfalse Hmissing).
Qed.

(** [absent_target_left_alone] on the target [target.sub] in an event
    whose [target] is a mapping without [sub]. *)
Lemma absent_target_left_alone_witness :
  _apply_rules
    {| _name := "tr"; _target_field := "target.sub";
       _target_field_split := ["target"; "sub"];
       _fields := ["a"; "b"];
       _mapping := VDict [("foo", VDict [("bar", VStr "Z")])] |}
    [("a", VStr "foo"); ("b", VStr "bar"); ("target", VDict [])]
  = inr [("a", VStr "foo"); ("b", VStr "bar"); ("target", VDict [])].
Proof.
  apply (absent_target_left_alone _ _ (Some (VStr "Z"))).
  - reflexivity.
  - vm_compute. exact I.
Defined.

(** X15.  For a processor the constructor has built: an event whose
    configured fields read as keys that the index has no entry for is
    left as it was, and the call returns. *)
Theorem unknown_keys_left_alone (name template_path : string)
    (pat : pattern) (template : odict string value) (self : processor)
    (event : dict) (keys : list string) :
  __init__ name template_path pat template = inr self ->
  fields_read_as event (_fields self) keys ->
  get_path (_mapping self) keys = None ->
  _apply_rules self event = inr event.
Proof.
  intros Hinit Hread Hnone.
  unfold __init__, mbind, result_bind in Hinit.
  destruct (list_index (allowed_delimiter_field pat) (fields pat))
    as [A |] eqn:HA; [| done].
  cbn [expect] in Hinit.
  destruct (add_entries name template_path (fields pat) (delimiter pat) A
              template (VDict [])) as [e | mapping] eqn:Hbuild; [done |].
  inversion Hinit; subst self. cbn [_mapping _fields] in *. clear Hinit.
  assert (fields pat ≠ []) as Hfields by (intros Heq; by rewrite Heq in HA).
  destruct (add_entries_spec name template_path (fields pat) (delimiter pat)
              A Hfields _ _ _ (wf_index_empty _ Hfields) Hbuild) as [Hwf _].
  assert (length keys = length (fields pat)) as Hlen.
  { symmetry. by eapply Forall2_length. }
  unfold _apply_rules. cbn [_fields _mapping].
  rewrite (TemplateLookup.lookup_fields_get_path event (fields pat) keys Hread).
  - by rewrite Hnone.
  - intros ->. simpl in Hlen. destruct (fields pat); done.
  - by rewrite Hlen.
Qed.

(** [unknown_keys_left_alone] on an event whose fields read as [foo]
    and [baz], for a template that has [foo-bar] only. *)
Lemma unknown_keys_left_alone_witness :
  exists self,
    __init__ "tr" "/etc/template.yml" (Samples.two_fields "a")
      [("foo-bar", VStr "Z")] = inr self /\
    _apply_rules self
      [("a", VStr "foo"); ("b", VStr "baz"); ("target", VDict [("sub", VInt 1)])]
    = inr [("a", VStr "foo"); ("b", VStr "baz");
           ("target", VDict [("sub", VInt 1)])].
Proof.
  pose (self := {| _name := "tr"; _target_field := "target.sub";
                   _target_field_split := ["target"; "sub"];
                   _fields := ["a"; "b"];
                   _mapping := VDict [("foo", VDict [("bar", VStr "Z")])] |}).
  exists self. split; [vm_compute; reflexivity |].
  apply (unknown_keys_left_alone "tr" "/etc/template.yml"
           (Samples.two_fields "a") [("foo-bar", VStr "Z")] self _
           ["foo"; "baz"]).
  - vm_compute. reflexivity.
  - repeat constructor; eexists; (split; [reflexivity |]); by split.
  - reflexivity.
Defined.

End TemplateApply.

(* ===================================================================== *)
(** * The resolver: the replacement written when several patterns match *)
(* ===================================================================== *)

Module ResolverTieBreak.
Import Py Accessor GenericResolver Notions PyFacts.






End ResolverTieBreak.
